(** * VectHare: backend manager and BM25 fixture

    A shallow embedding of [src/backends/backend-manager.js] (the backend
    registry, alias resolution and the instance cache with its health and
    last-access tables), followed by the BM25 scoring formula of the
    specification evaluated on the corpus of [src/bm25-test.js].

    Conventions of the embedding.
    - The three module-level objects [backendInstances],
      [backendHealthStatus] and [backendAccessTimestamps] are fields of one
      [State] record that every operation receives and returns.
    - [backendInstances] and [backendHealthStatus] are only read by key and
      counted, so they are finite maps.  [backendAccessTimestamps] is walked
      with [Object.entries], whose order (the keys that are array indices in
      ascending order, then the other keys in insertion order) decides
      ties, so it is an association list kept in that order.
    - What the outside world decides during a call is an argument of the
      call: the value of [Date.now()] and what constructing, initializing
      and probing a backend does ([Env]).
    - Each operation runs to completion; the interleaving of two pending
      [async] calls is not part of the model.  What [console.log] and
      [console.warn] print is not modelled; what evaluating their
      arguments can throw is.
    - A JavaScript exception is the [Abrupt] completion.  A backend class
      may throw any value; the manager only tells [undefined] and [null]
      from the values whose [message] it can read ([Thrown]). *)

From Stdlib Require Import Ascii Reals Lra.
From stdpp Require Import gmap strings list fin_maps pretty.

Local Open Scope string_scope.
Local Open Scope Z_scope.

(** ** JavaScript values that reach the manager *)

(** A backend name as callers pass it: a string, or one of the two
    non-string values the code itself expects ([undefined] for an omitted
    argument or a missing settings field, [null] for the declared
    defaults). *)
Inductive JsName : Type :=
  | JsUndefined
  | JsNull
  | JsStr (s : string).

(** [!!x] of JavaScript: [undefined], [null] and the empty string are
    falsy, every other string is truthy. *)
Definition truthy_string (s : string) : bool :=
  negb (String.eqb s EmptyString).

Definition truthy (x : JsName) : bool :=
  match x with
  | JsStr s => truthy_string s
  | _ => false
  end.

(** [a || b] on names. *)
Definition js_or (a b : JsName) : JsName :=
  if truthy a then a else b.

(** The imported backend classes. *)
Inductive BackendClass : Type :=
  | StandardBackend
  | LanceDBBackend
  | QdrantBackend
  | MilvusBackend.

(** A live backend object: its class and the identity it got from [new]. *)
Record Backend : Type := mkBackend {
  backendClass : BackendClass;
  objectId : nat
}.

(** The [settings] object, as far as the manager looks into it. *)
Record Settings : Type := mkSettings {
  vector_backend : JsName
}.

(** A value thrown by a backend class (or the reason its promise is
    rejected with): [undefined], [null], or a value whose property
    [message] can be read, an [Error] object as a rule, with the text of
    that message. *)
Inductive Thrown : Type :=
  | ThrownUndefined
  | ThrownNull
  | ThrownError (message : string).

(** [error.message] throws a [TypeError] on [undefined] and on [null]. *)
Definition has_message (thrown : Thrown) : bool :=
  match thrown with
  | ThrownError _ => true
  | _ => false
  end.

(** Errors the manager can raise or pass on: [BackendError] is whatever a
    backend class threw, [CannotReadMessage] the [TypeError] of reading
    [error.message] where [error] is [undefined] or [null]. *)
Inductive JsError : Type :=
  | UnknownBackend (backendName : JsName) (normalizedName : string)
  | FailedHealthCheck (normalizedName : string)
  | CollectionBackendNotSpecified
  | BackendError (thrown : Thrown)
  | CannotReadMessage.

Inductive Completion (A : Type) : Type :=
  | Normal (value : A)
  | Abrupt (error : JsError).
Arguments Normal {A} value.
Arguments Abrupt {A} error.

(** What one attempt to bring up a backend does:
    [new BackendClass()], [backend.initialize(settings)] and
    [backend.healthCheck()], each of which may throw; the probe otherwise
    yields a truthy or a falsy value. *)
Inductive Attempt : Type :=
  | ConstructorThrows (thrown : Thrown)
  | InitializeThrows (thrown : Thrown)
  | HealthCheckThrows (thrown : Thrown)
  | HealthCheckReturns (healthy : bool).

(** The part of a call that the environment decides. *)
Record Env : Type := mkEnv {
  now : Z;                          (* Date.now() *)
  attempt : Attempt;                (* the backend's behaviour, if asked *)
  global_vector_backend : JsName    (* extension_settings.vecthare?.vector_backend *)
}.

(** Calls into a backend class made by the manager. *)
Inductive Effect : Type :=
  | EvNew (cls : BackendClass)
  | EvInitialize (cls : BackendClass) (settings : option Settings)
  | EvHealthCheck (cls : BackendClass).

(** ** An object with its keys in order ([backendAccessTimestamps]) *)

Module Obj.

(** The value of a decimal digit. *)
Definition digit (c : ascii) : option N :=
  let n := N_of_ascii c in
  if ((48 <=? n) && (n <=? 57))%N then Some (n - 48)%N else None.

(** The number that a string of decimal digits writes. *)
Fixpoint digits (s : string) (acc : N) : option N :=
  match s with
  | EmptyString => Some acc
  | String c rest =>
      match digit c with
      | Some d => digits rest (10 * acc + d)%N
      | None => None
      end
  end.

(** The array index that a key spells, if it is one: the decimal writing,
    without leading zeros, of an integer from 0 to 2^32 - 2. *)
Definition array_index (k : string) : option N :=
  match k with
  | EmptyString => None
  | String "0" EmptyString => Some 0%N
  | String "0" _ => None
  | _ =>
      match digits k 0 with
      | Some n => if (n <? 4294967295)%N then Some n else None
      | None => None
      end
  end.

(** [o[k]] *)
Fixpoint get (k : string) (o : list (string * Z)) : option Z :=
  match o with
  | [] => None
  | (k', v) :: rest => if String.eqb k' k then Some v else get k rest
  end.

(** An existing key keeps its place, a new key goes last. *)
Fixpoint update (k : string) (v : Z) (o : list (string * Z)) : list (string * Z) :=
  match o with
  | [] => [(k, v)]
  | (k', v') :: rest =>
      if String.eqb k' k then (k', v) :: rest else (k', v') :: update k v rest
  end.

(** A new key that is the array index [n] goes before the first key that
    is a larger array index or no array index. *)
Fixpoint insert_index (k : string) (n : N) (v : Z) (o : list (string * Z))
    : list (string * Z) :=
  match o with
  | [] => [(k, v)]
  | (k', v') :: rest =>
      match array_index k' with
      | Some n' =>
          if (n <? n')%N then (k, v) :: o
          else (k', v') :: insert_index k n v rest
      | None => (k, v) :: o
      end
  end.

(** [o[k] = v], with the keys in the order [Object.entries] lists them:
    the array indices first, in ascending order, then the other keys in
    the order they were added; an existing key keeps its place. *)
Definition set (k : string) (v : Z) (o : list (string * Z)) : list (string * Z) :=
  match get k o, array_index k with
  | None, Some n => insert_index k n v o
  | _, _ => update k v o
  end.

(** [delete o[k]] *)
Fixpoint remove (k : string) (o : list (string * Z)) : list (string * Z) :=
  match o with
  | [] => []
  | (k', v') :: rest =>
      if String.eqb k' k then remove k rest else (k', v') :: remove k rest
  end.

End Obj.

(** ** The manager's state *)

Record State : Type := mkState {
  backendInstances : gmap string Backend;
  backendHealthStatus : gmap string bool;
  backendAccessTimestamps : list (string * Z);
  allocated : nat   (* objects created so far: the next object identity *)
}.

Definition initial : State :=
  {| backendInstances := ∅;
     backendHealthStatus := ∅;
     backendAccessTimestamps := [];
     allocated := 0 |}.

(** The outcome of one call: how it completed, the state it left and the
    backend calls it made, in order. *)
Record Run (A : Type) : Type := mkRun {
  completion : Completion A;
  after : State;
  effects : list Effect
}.
Arguments mkRun {A} completion after effects.
Arguments completion {A} r.
Arguments after {A} r.
Arguments effects {A} r.

(** Backend name aliases (server uses 'vectra', we use 'standard'). *)
Definition BACKEND_ALIASES : gmap string string :=
  {[ "vectra" := "standard" ]}.

Definition MAX_CACHED_BACKENDS : nat := 5.

(** [normalizeBackendName].

    On a string that names a property inherited from [Object.prototype]
    ("constructor", "toString", ...) the JavaScript lookup
    [BACKEND_ALIASES[backendName]] yields that inherited function, and the
    function, used as a key, is spelled by its source text, which is no
    key of the registry or of the cache tables.  Here such a name
    normalizes to itself, which is no key of them either: unknown names
    are never written to the tables, so both spellings are observed alike. *)
Definition normalizeBackendName (backendName : JsName) : string :=
  match backendName with
  | JsStr s =>
      if truthy_string s then
        match BACKEND_ALIASES !! s with
        | Some alias => if truthy_string alias then alias else s
        | None => s
        end
      else "standard"
  | _ => "standard"
  end.

(** The loop of [evictLRUBackendIfNeeded]: [oldestTime = None] is
    [Infinity], below which every timestamp lies. *)
Fixpoint oldest_scan (entries : list (string * Z))
    (oldestBackend : option string) (oldestTime : option Z) : option string :=
  match entries with
  | [] => oldestBackend
  | (name, timestamp) :: rest =>
      let lower :=
        match oldestTime with
        | None => true
        | Some t => timestamp <? t
        end in
      if lower then oldest_scan rest (Some name) (Some timestamp)
      else oldest_scan rest oldestBackend oldestTime
  end.

Definition forget (name : string) (s : State) : State :=
  {| backendInstances := delete name (backendInstances s);
     backendHealthStatus := delete name (backendHealthStatus s);
     backendAccessTimestamps := Obj.remove name (backendAccessTimestamps s);
     allocated := allocated s |}.

(** [evictLRUBackendIfNeeded] *)
Definition evictLRUBackendIfNeeded (s : State) : State :=
  let cachedCount := size (backendInstances s) in
  if (MAX_CACHED_BACKENDS <=? cachedCount)%nat then
    match oldest_scan (backendAccessTimestamps s) None None with
    | Some oldestBackend =>
        if truthy_string oldestBackend then forget oldestBackend s else s
    | None => s
    end
  else s.

Definition set_health (name : string) (h : bool) (s : State) : State :=
  {| backendInstances := backendInstances s;
     backendHealthStatus := <[name := h]> (backendHealthStatus s);
     backendAccessTimestamps := backendAccessTimestamps s;
     allocated := allocated s |}.

Definition touch (name : string) (t : Z) (s : State) : State :=
  {| backendInstances := backendInstances s;
     backendHealthStatus := backendHealthStatus s;
     backendAccessTimestamps := Obj.set name t (backendAccessTimestamps s);
     allocated := allocated s |}.

Definition set_instance (name : string) (b : Backend) (s : State) : State :=
  {| backendInstances := <[name := b]> (backendInstances s);
     backendHealthStatus := backendHealthStatus s;
     backendAccessTimestamps := backendAccessTimestamps s;
     allocated := allocated s |}.

Definition allocate (s : State) : State :=
  {| backendInstances := backendInstances s;
     backendHealthStatus := backendHealthStatus s;
     backendAccessTimestamps := backendAccessTimestamps s;
     allocated := S (allocated s) |}.

(** The healthy cached instance of a name, if there is one:
    [backendInstances[n] && backendHealthStatus[n]]. *)
Definition healthy_instance (normalizedName : string) (s : State) : option Backend :=
  match backendInstances s !! normalizedName, backendHealthStatus s !! normalizedName with
  | Some backend, Some true => Some backend
  | _, _ => None
  end.

Section Manager.

(** The backend registry: the keys of the [BACKENDS] table and the class
    each one constructs.  The source's table follows the section. *)
Variable BACKENDS : gmap string BackendClass.

(** The body of the [try] block of [initializeBackend]. *)
Definition try_initialize (cls : BackendClass) (normalizedName : string)
    (settings : option Settings) (throwOnFail : bool) (w : Env) (s : State)
    : Run (option Backend) :=
  match attempt w with
  | ConstructorThrows thrown =>
      mkRun (Abrupt (BackendError thrown)) s [EvNew cls]
  | InitializeThrows thrown =>
      mkRun (Abrupt (BackendError thrown)) (allocate s)
        [EvNew cls; EvInitialize cls settings]
  | HealthCheckThrows thrown =>
      mkRun (Abrupt (BackendError thrown)) (allocate s)
        [EvNew cls; EvInitialize cls settings; EvHealthCheck cls]
  | HealthCheckReturns healthy =>
      let backend := mkBackend cls (allocated s) in
      let s1 := allocate s in
      let calls := [EvNew cls; EvInitialize cls settings; EvHealthCheck cls] in
      if healthy then
        mkRun (Normal (Some backend))
          (touch normalizedName (now w)
             (set_health normalizedName true
                (set_instance normalizedName backend s1)))
          calls
      else
        let s2 := set_health normalizedName false s1 in
        if throwOnFail then
          mkRun (Abrupt (FailedHealthCheck normalizedName)) s2 calls
        else
          mkRun (Normal None) s2 calls
  end.

(** [initializeBackend(backendName, settings, throwOnFail)] *)
Definition initializeBackend (backendName : JsName) (settings : option Settings)
    (throwOnFail : bool) (w : Env) (s : State) : Run (option Backend) :=
  let normalizedName := normalizeBackendName backendName in
  match healthy_instance normalizedName s with
  | Some backend =>
      mkRun (Normal (Some backend)) (touch normalizedName (now w) s) []
  | None =>
      let s1 := evictLRUBackendIfNeeded s in
      match BACKENDS !! normalizedName with
      | None =>
          if throwOnFail then
            mkRun (Abrupt (UnknownBackend backendName normalizedName)) s1 []
          else
            mkRun (Normal None) s1 []
      | Some cls =>
          let r := try_initialize cls normalizedName settings throwOnFail w s1 in
          match completion r with
          | Normal _ => r
          | Abrupt error =>
              (* catch (error) *)
              let s2 := set_health normalizedName false (after r) in
              if throwOnFail then
                mkRun (Abrupt error) s2 (effects r)
              else
                (* console.warn(..., error.message) *)
                match error with
                | BackendError thrown =>
                    if has_message thrown then
                      mkRun (Normal None) s2 (effects r)
                    else
                      mkRun (Abrupt CannotReadMessage) s2 (effects r)
                | _ => mkRun (Normal None) s2 (effects r)
                end
          end
      end
  end.

(** [getBackend(settings, preferredBackend)].  [settings] itself may be
    absent ([settings?.vector_backend]). *)
Definition getBackend (settings : option Settings) (preferredBackend : JsName)
    (w : Env) (s : State) : Run (option Backend) :=
  let backendName :=
    js_or preferredBackend
      (js_or (from_option vector_backend JsUndefined settings)
         (js_or (global_vector_backend w) (JsStr "standard"))) in
  initializeBackend backendName settings true w s.

(** [getBackendForCollection(collectionBackend, settings)] *)
Definition getBackendForCollection (collectionBackend : JsName)
    (settings : option Settings) (w : Env) (s : State) : Run (option Backend) :=
  if truthy collectionBackend then
    getBackend settings collectionBackend w s
  else
    mkRun (Abrupt CollectionBackendNotSpecified) s [].

(** [isBackendAvailable(backendName, settings)] *)
Definition isBackendAvailable (backendName : JsName) (settings : option Settings)
    (w : Env) (s : State) : Run bool :=
  let normalizedName := normalizeBackendName backendName in
  match backendHealthStatus s !! normalizedName with
  | Some false => mkRun (Normal false) s []
  | _ =>
      match healthy_instance normalizedName s with
      | Some _ => mkRun (Normal true) s []
      | None =>
          let r := initializeBackend backendName settings false w s in
          match completion r with
          | Normal backend => mkRun (Normal (bool_decide (is_Some backend))) (after r) (effects r)
          | Abrupt error => mkRun (Abrupt error) (after r) (effects r)
          end
      end
  end.

(** One turn of the reset-all loop. *)
Definition reset_one (s : State) (name : string) : State :=
  {| backendInstances := delete name (backendInstances s);
     backendHealthStatus := delete name (backendHealthStatus s);
     backendAccessTimestamps := backendAccessTimestamps s;
     allocated := allocated s |}.

(** [resetBackendHealth(backendName = null)].  The reset-all loop runs
    over [Object.keys(backendHealthStatus)], an array taken before the
    first deletion. *)
Definition resetBackendHealth (backendName : JsName) (s : State) : State :=
  if truthy backendName then
    reset_one s (normalizeBackendName backendName)
  else
    foldl reset_one s (map_to_list (backendHealthStatus s)).*1.

(** The error a fresh initialization of [backendName] runs into, if any:
    the name is not registered after alias resolution, the constructor
    or [initialize] throws, or the health probe throws or answers
    falsy. *)
Definition failure (backendName : JsName) (w : Env) : option JsError :=
  let normalizedName := normalizeBackendName backendName in
  match BACKENDS !! normalizedName with
  | None => Some (UnknownBackend backendName normalizedName)
  | Some _ =>
      match attempt w with
      | ConstructorThrows thrown => Some (BackendError thrown)
      | InitializeThrows thrown => Some (BackendError thrown)
      | HealthCheckThrows thrown => Some (BackendError thrown)
      | HealthCheckReturns false => Some (FailedHealthCheck normalizedName)
      | HealthCheckReturns true => None
      end
  end.

(** ** Sequences of calls *)

Inductive Call : Type :=
  | InitializeBackend (backendName : JsName) (settings : option Settings)
      (throwOnFail : bool)
  | GetBackend (settings : option Settings) (preferredBackend : JsName)
  | GetBackendForCollection (collectionBackend : JsName)
      (settings : option Settings)
  | IsBackendAvailable (backendName : JsName) (settings : option Settings)
  | ResetBackendHealth (backendName : JsName).

(** The state a call leaves, whether it returned or threw. *)
Definition perform (s : State) (c : Call * Env) : State :=
  let w := c.2 in
  match c.1 with
  | InitializeBackend backendName settings throwOnFail =>
      after (initializeBackend backendName settings throwOnFail w s)
  | GetBackend settings preferredBackend =>
      after (getBackend settings preferredBackend w s)
  | GetBackendForCollection collectionBackend settings =>
      after (getBackendForCollection collectionBackend settings w s)
  | IsBackendAvailable backendName settings =>
      after (isBackendAvailable backendName settings w s)
  | ResetBackendHealth backendName =>
      resetBackendHealth backendName s
  end.

Definition perform_all (calls : list (Call * Env)) (s : State) : State :=
  foldl perform s calls.

(** Every cached name is a registered, normalized name, and a name has a
    cached instance exactly when its health flag is [true]. *)
Record wellformed (s : State) : Prop := {
  cached_registered : ∀ k,
    is_Some (backendInstances s !! k) →
    is_Some (BACKENDS !! k) ∧ normalizeBackendName (JsStr k) = k;
  cached_iff_healthy : ∀ k,
    is_Some (backendInstances s !! k) ↔ backendHealthStatus s !! k = Some true
}.

End Manager.

(** The timestamp table and the instance table list the same names, and
    the cache is within its cap. *)
Record in_step (s : State) : Prop := {
  stamped_iff_cached : ∀ k,
    is_Some (Obj.get k (backendAccessTimestamps s))
    ↔ is_Some (backendInstances s !! k);
  within_cap : (size (backendInstances s) ≤ MAX_CACHED_BACKENDS)%nat
}.

Definition is_reset (c : Call) : bool :=
  match c with
  | ResetBackendHealth _ => true
  | _ => false
  end.

(** The registry as the source declares it. *)
Definition BACKENDS : gmap string BackendClass :=
  {[ "standard" := StandardBackend;
     "lancedb" := LanceDBBackend;
     "qdrant" := QdrantBackend;
     "milvus" := MilvusBackend ]}.

(** ** Inputs of the examples *)

(** Environments used in the examples below. *)
Definition healthy_at (t : Z) : Env :=
  mkEnv t (HealthCheckReturns true) JsUndefined.

Definition unhealthy_at (t : Z) : Env :=
  mkEnv t (HealthCheckReturns false) JsUndefined.

(** Tables with a stale timestamp: five cached instances, and a sixth
    timestamp entry, the oldest, left behind by a reset of "chroma". *)
Definition stale_timestamp_state : State :=
  {| backendInstances :=
       {[ "standard" := mkBackend StandardBackend 1;
          "lancedb" := mkBackend LanceDBBackend 2;
          "qdrant" := mkBackend QdrantBackend 3;
          "milvus" := mkBackend MilvusBackend 4;
          "pinecone" := mkBackend StandardBackend 5 ]};
     backendHealthStatus :=
       {[ "standard" := true; "lancedb" := true; "qdrant" := true;
          "milvus" := true; "pinecone" := true ]};
     backendAccessTimestamps :=
       [("chroma", 1); ("standard", 2); ("lancedb", 3); ("qdrant", 4);
        ("milvus", 5); ("pinecone", 6)];
     allocated := 6 |}.

(** How these tables arise.  The shipped registry caches at most four
    names, so the eviction branch needs a registry with more entries, as
    the table's comment invites ("add new backends here"): two names are
    added (which class an added name constructs plays no part). *)
Definition BACKENDS_extended : gmap string BackendClass :=
  <["chroma" := StandardBackend]> (<["pinecone" := StandardBackend]> BACKENDS).

(** "chroma" is cached and reset, then five other backends are cached. *)
Definition stale_timestamp_calls : list (Call * Env) :=
  [ (InitializeBackend (JsStr "chroma") None true, healthy_at 1);
    (ResetBackendHealth (JsStr "chroma"), healthy_at 1);
    (InitializeBackend (JsStr "standard") None true, healthy_at 2);
    (InitializeBackend (JsStr "lancedb") None true, healthy_at 3);
    (InitializeBackend (JsStr "qdrant") None true, healthy_at 4);
    (InitializeBackend (JsStr "milvus") None true, healthy_at 5);
    (InitializeBackend (JsStr "pinecone") None true, healthy_at 6) ].

(** Six backends of the extended registry are initialized in turn, with
    no reset. *)
Definition fill_calls : list (Call * Env) :=
  [ (InitializeBackend (JsStr "chroma") None true, healthy_at 1);
    (InitializeBackend (JsStr "standard") None true, healthy_at 2);
    (InitializeBackend (JsStr "lancedb") None true, healthy_at 3);
    (InitializeBackend (JsStr "qdrant") None true, healthy_at 4);
    (InitializeBackend (JsStr "milvus") None true, healthy_at 5);
    (InitializeBackend (JsStr "pinecone") None true, healthy_at 6) ].

(** * BM25 on the test corpus *)

Module BM25.

Local Open Scope R_scope.

(** Modelled from the spec: a document as [indexDocuments] receives it,
    "an opaque identifier, a text body". *)
Record Document : Type := mkDocument {
  text : string;
  id : nat
}.

(** Modelled from the spec: which characters make up a term
    ("non-alphanumeric boundaries").  Texts are byte strings; the letters
    and digits of ASCII are the alphanumeric characters. *)
Definition is_alphanumeric (c : ascii) : bool :=
  let n := nat_of_ascii c in
  (Nat.leb 48 n && Nat.leb n 57)
  || (Nat.leb 65 n && Nat.leb n 90)
  || (Nat.leb 97 n && Nat.leb n 122).

(** Modelled from the spec: "lower-cased" ("case-folded"). *)
Definition lower_case (c : ascii) : ascii :=
  let n := nat_of_ascii c in
  if Nat.leb 65 n && Nat.leb n 90 then ascii_of_nat (n + 32) else c.

(** Modelled from the spec: "split on non-alphanumeric boundaries, empty
    tokens discarded".  [current] is the term being read. *)
Fixpoint split_terms (text current : string) : list string :=
  match text with
  | EmptyString => if String.eqb current EmptyString then [] else [current]
  | String c rest =>
      if is_alphanumeric c then
        split_terms rest (current +:+ String (lower_case c) EmptyString)
      else if String.eqb current EmptyString then split_terms rest EmptyString
      else current :: split_terms rest EmptyString
  end.

(** Modelled from the spec: the tokenizer of [core/bm25-scorer.js], which
    is not among the sources.  "produce a sequence of normalized terms
    (lower-cased, split on non-alphanumeric boundaries, empty tokens
    discarded)". *)
Definition tokenize (text : string) : list string :=
  split_terms text EmptyString.

(** Modelled from the spec: "per document: raw occurrence count", the
    number of times [term] occurs among the document's tokens. *)
Definition termFrequency (term : string) (tokens : list string) : nat :=
  length (List.filter (String.eqb term) tokens).

(** Modelled from the spec: "A term's document frequency equals the count
    of documents whose per-document occurrence count for that term is
    > 0." *)
Definition documentFrequency (term : string) (corpus : list Document) : nat :=
  length (List.filter
            (fun d => Nat.ltb 0 (termFrequency term (tokenize (text d))))
            corpus).

(** Modelled from the spec: "that document's total token count". *)
Definition documentLength (d : Document) : nat :=
  length (tokenize (text d)).

(** Modelled from the spec: "average document length (arithmetic mean of
    token counts across indexed documents)". *)
Definition averageLength (corpus : list Document) : R :=
  INR (list_sum (List.map documentLength corpus)) / INR (length corpus).

(** Modelled from the spec:
    [IDF(qi) = ln((N − df(qi) + 0.5) / (df(qi) + 0.5) + 1)]. *)
Definition idf (N df : nat) : R :=
  ln ((INR N - INR df + 0.5) / (INR df + 0.5) + 1).

(** Modelled from the spec: the factor
    [f(qi,D)·(k1+1) / (f(qi,D) + k1·(1−b+b·|D|/avgdl))]. *)
Definition saturation (k1 b : R) (f len : nat) (avgdl : R) : R :=
  INR f * (k1 + 1) / (INR f + k1 * (1 - b + b * INR len / avgdl)).

(** Modelled from the spec: one summand of [score(D,Q)], with [N] the
    number of indexed documents and [avgdl] their average length. *)
Definition termScore (k1 b : R) (corpus : list Document) (term : string)
    (d : Document) : R :=
  idf (length corpus) (documentFrequency term corpus)
  * saturation k1 b (termFrequency term (tokenize (text d)))
      (documentLength d) (averageLength corpus).

(** Modelled from the spec: the score [search] gives a document of an
    indexed corpus, [score(D,Q) = Σ_qi IDF(qi) · ...] over the terms of
    the tokenized query, in real arithmetic. *)
Definition score (k1 b : R) (corpus : list Document) (query : string)
    (d : Document) : R :=
  fold_right Rplus 0 (List.map (fun term => termScore k1 b corpus term d)
                        (tokenize query)).

(** Modelled from the spec: the order of [search] results, "descending
    ... score; ties broken by original candidate order (stable)": the
    document at position [i] of the corpus is ranked above the one at
    position [j]. *)
Definition ranks_above (k1 b : R) (corpus : list Document) (query : string)
    (i j : nat) : Prop :=
  match corpus !! i, corpus !! j with
  | Some di, Some dj =>
      score k1 b corpus query dj < score k1 b corpus query di
      ∨ (score k1 b corpus query di = score k1 b corpus query dj ∧ (i < j)%nat)
  | _, _ => False
  end.

(** [testDocuments] of [src/bm25-test.js]. *)
Definition testDocuments : list Document :=
  [ mkDocument "The wizard cast a powerful fire spell at the dragon" 1;
    mkDocument "Magic spells require concentration and mana" 2;
    mkDocument "The dragon breathed fire across the battlefield" 3;
    mkDocument "Ancient wizards studied magic in the tower" 4;
    mkDocument "She learned a new healing spell today" 5 ].

Definition wizardDocument : Document :=
  mkDocument "The wizard cast a powerful fire spell at the dragon" 1.

Definition query1 : string := "wizard magic spell".

End BM25.

(** * More of the manager's interface *)

(** [getAvailableBackends()]: [Object.keys(BACKENDS)], the names of the
    table in the order the source lists them. *)
Definition getAvailableBackends : list string :=
  ["standard"; "lancedb"; "qdrant"; "milvus"]%string.

(** Every cached name has an entry in the timestamp table. *)
Definition stamped (s : State) : Prop :=
  ∀ k, is_Some (backendInstances s !! k) →
       is_Some (Obj.get k (backendAccessTimestamps s)).

(** The cached objects were all created by [new] (their identities are
    below the allocation counter) and no object sits under two names. *)
Record identified (s : State) : Prop := {
  ids_allocated : ∀ k b,
    backendInstances s !! k = Some b → (objectId b < allocated s)%nat;
  ids_distinct : ∀ k1 k2 b1 b2,
    backendInstances s !! k1 = Some b1 →
    backendInstances s !! k2 = Some b2 →
    objectId b1 = objectId b2 → k1 = k2
}.

(** * The LanceDB backend ([src/backends/lancedb.js])

    The backend talks to the plugin over [fetch]; what the network answers
    to each request is an argument of the method ([Fetched]), and the
    requests a method makes are part of its result.  Strings are sequences
    of characters, one character per UTF-16 code unit of the JavaScript
    string.  What [console] prints is not modelled; what evaluating its
    arguments can throw is. *)

Module LanceDB.

Definition BACKEND_TYPE : string := "lancedb".

(** [s.split(sep)] for a separator of one character: the pieces between
    the separators, at least one piece. *)
Fixpoint split (sep : ascii) (s : string) : list string :=
  match s with
  | EmptyString => [EmptyString]
  | String c rest =>
      if Ascii.eqb c sep then EmptyString :: split sep rest
      else
        match split sep rest with
        | piece :: pieces => String c piece :: pieces
        | [] => [String c EmptyString]
        end
  end.

(** [parts.join(sep)] *)
Fixpoint join (sep : string) (parts : list string) : string :=
  match parts with
  | [] => EmptyString
  | [piece] => piece
  | piece :: pieces => piece +:+ sep +:+ join sep pieces
  end.

(** [list.includes(x)] *)
Definition includes (l : list string) (x : string) : bool :=
  existsb (String.eqb x) l.

Definition knownBackends : list string :=
  ["standard"; "lancedb"; "vectra"; "milvus"; "qdrant"]%string.

Definition knownSources : list string :=
  ["transformers"; "openai"; "cohere"; "ollama"; "llamacpp"; "vllm";
   "koboldcpp"; "webllm"; "bananabread"; "openrouter"; "togetherai";
   "mistral"]%string.

(** [!s.includes(sep)]: the separator does not occur in [s]. *)
Fixpoint no_sep (sep : ascii) (s : string) : bool :=
  match s with
  | EmptyString => true
  | String c rest => negb (Ascii.eqb c sep) && no_sep sep rest
  end.

(** [parts[i]] of an array of strings, [undefined] past the end. *)
Definition part (parts : list string) (i : nat) : JsName :=
  match parts !! i with
  | Some piece => JsStr piece
  | None => JsUndefined
  end.

(** [list.includes(parts[i])] *)
Definition includes_part (l : list string) (x : JsName) : bool :=
  match x with
  | JsStr piece => includes l piece
  | _ => false
  end.

(** [_stripRegistryPrefix(collectionId)].  The argument is a string, or
    [undefined] or [null], which the first test hands back. *)
Definition _stripRegistryPrefix (collectionId : JsName) : JsName :=
  match collectionId with
  | JsStr s =>
      if truthy_string s then
        let parts := split ":" s in
        if Nat.leb 3 (length parts)
           && includes_part knownBackends (part parts 0)
           && includes_part knownSources (part parts 1)
        then JsStr (join ":" (drop 2 parts))
        else if Nat.leb 2 (length parts)
                && includes_part knownSources (part parts 0)
        then JsStr (join ":" (drop 1 parts))
        else collectionId
      else collectionId
  | _ => collectionId
  end.

(** *** Values, requests and responses *)

(** How a method of the backend ends: it returns, or it throws an error
    with this message. *)
Inductive Outcome (A : Type) : Type :=
  | Returns (value : A)
  | Throws (message : string).
Arguments Returns {A} value.
Arguments Throws {A} message.

(** A value produced by [response.json()].  A number is known by whether
    it is zero and by the text [String(n)] gives for it.  A string is kept
    as a Rocq string, one [ascii] per character; text with characters
    above 255 is outside the model.  An object lists each of its own
    properties once. *)
#[warnings="-register-all"]
Inductive Json : Type :=
  | JNull
  | JBool (b : bool)
  | JNumber (zero : bool) (shown : string)
  | JString (s : string)
  | JArray (items : list Json)
  | JObject (fields : list (string * Json)).

(** A JavaScript value in this file: [None] is [undefined]. *)
Abbreviation Value := (option Json).

(** [!!v] *)
Definition truthy_value (v : Value) : bool :=
  match v with
  | None => false
  | Some JNull => false
  | Some (JBool b) => b
  | Some (JNumber zero _) => negb zero
  | Some (JString s) => truthy_string s
  | Some (JArray _) => true
  | Some (JObject _) => true
  end.

(** [a || b] *)
Definition or_else (a b : Value) : Value :=
  if truthy_value a then a else b.

(** [String(v)] where the conversion returns. *)
Fixpoint show (j : Json) : string :=
  match j with
  | JNull => "null"
  | JBool true => "true"
  | JBool false => "false"
  | JNumber _ shown => shown
  | JString s => s
  | JArray items =>
      (fix elements (l : list Json) : string :=
         match l with
         | [] => EmptyString
         | x :: rest =>
             let shown := match x with JNull => EmptyString | _ => show x end in
             match rest with
             | [] => shown
             | _ => shown +:+ "," +:+ elements rest
             end
         end) items
  | JObject _ => "[object Object]"
  end.

(** The own property [name] of an object read from JSON ([fields] lists
    each property once). *)
Fixpoint property (name : string) (fields : list (string * Json)) : Value :=
  match fields with
  | [] => None
  | (k, v) :: rest => if String.eqb k name then Some v else property name rest
  end.

(** Whether [String(j)] returns.  An object read from JSON is rendered by
    the [toString] that objects inherit, unless a property "toString" of
    its own hides it: that property is no function, no [valueOf] gives a
    primitive either, and the conversion throws a [TypeError].  An array
    renders its elements ([null] as the empty text). *)
Fixpoint showable (j : Json) : bool :=
  match j with
  | JArray items => forallb showable items
  | JObject fields =>
      match property "toString" fields with
      | Some _ => false
      | None => true
      end
  | _ => true
  end.

(** Whether a template literal can render [v]. *)
Definition printable (v : Value) : bool :=
  match v with
  | None => true
  | Some j => showable j
  end.

(** [`${v}`]: the text a template literal puts for [v], or the
    [TypeError] of the conversion. *)
Definition to_string (v : Value) : Outcome string :=
  match v with
  | None => Returns "undefined"
  | Some j =>
      if showable j then Returns (show j)
      else Throws "Cannot convert object to primitive value"
  end.

(** [data.name], for the names this file reads ("healthy", "results",
    "chunks", "collections", "id", "source", "hash", "text", "score",
    "metadata"): reading a property of [undefined] or [null] throws a
    [TypeError]; booleans, numbers, strings and arrays have no property of
    these names. *)
Definition get (data : Value) (name : string) : Outcome Value :=
  match data with
  | None => Throws "Cannot read properties of undefined"
  | Some JNull => Throws "Cannot read properties of null"
  | Some (JObject fields) => Returns (property name fields)
  | Some _ => Returns None
  end.

(** A [Response], as far as the backend looks at it; [json] and [text]
    are what awaiting [response.json()] and [response.text()] gives. *)
Record Response : Type := mkResponse {
  ok : bool;
  status : nat;
  statusText : string;
  json : Outcome Json;
  text : Outcome string
}.

(** What awaiting [fetch(...)] gives: a rejection (network failure) or a
    response. *)
Inductive Fetched : Type :=
  | FetchRejects (message : string)
  | FetchResolves (response : Response).

(** A request handed to [fetch]: the URL, the method and the object that
    goes through [JSON.stringify] into the body (no body: no fields).  The
    headers come from [getRequestHeaders()] of the host application, which
    is taken to return. *)
Record Request : Type := mkRequest {
  url : string;
  method : string;
  body : list (string * Value)
}.

(** [await response.text().catch(() => 'No response body')] *)
Definition errorBody (response : Response) : string :=
  match text response with
  | Returns content => content
  | Throws _ => "No response body"
  end.

(** The text after the colon of the error messages:
    [${response.status} ${response.statusText} - ${errorBody}]. *)
Definition failure_text (response : Response) : string :=
  pretty (status response) +:+ " " +:+ statusText response +:+ " - "
  +:+ errorBody response.

(** *** The two endpoints the manager triggers *)

(** [initialize(settings)]: one POST to the init endpoint; [settings] is
    not looked at. *)
Definition initialize (fetched : Fetched) : Outcome unit :=
  match fetched with
  | FetchRejects message => Throws message
  | FetchResolves response =>
      if negb (ok response) then
        Throws ("Failed to initialize LanceDB: " +:+ failure_text response)
      else Returns tt
  end.

(** The body of the [try] block of [healthCheck]. *)
Definition healthCheck_try (fetched : Fetched) : Outcome bool :=
  match fetched with
  | FetchRejects message => Throws message
  | FetchResolves response =>
      if negb (ok response) then Returns false
      else
        match json response with
        | Throws message => Throws message
        | Returns data =>
            match get (Some data) "healthy" with
            | Throws message => Throws message
            | Returns (Some (JBool true)) => Returns true   (* === true *)
            | Returns _ => Returns false
            end
        end
  end.

(** [healthCheck()] *)
Definition healthCheck (fetched : Fetched) : Outcome bool :=
  match healthCheck_try fetched with
  | Returns healthy => Returns healthy
  | Throws _ => Returns false   (* catch (error) *)
  end.

(** The health endpoint answered, with an ok status and a JSON object
    whose property [healthy] is the boolean [true]. *)
Definition reports_healthy (fetched : Fetched) : Prop :=
  ∃ response fields,
    fetched = FetchResolves response
    ∧ ok response = true
    ∧ json response = Returns (JObject fields)
    ∧ property "healthy" fields = Some (JBool true).

(** What the manager's [try] block meets when the class is
    [LanceDBBackend].  The class declares no constructor, so
    [new LanceDBBackend()] runs the constructor of [VectorBackend]
    (backend-interface.js, which is not among the sources), with the
    outcome [constructed]; then [initialize] awaits the init endpoint and
    [healthCheck] the health endpoint. *)
Definition lancedb_attempt (constructed : Outcome unit) (init health : Fetched)
    : Attempt :=
  match constructed with
  | Throws message => ConstructorThrows (ThrownError message)
  | Returns _ =>
      match initialize init with
      | Throws message => InitializeThrows (ThrownError message)
      | Returns _ =>
          match healthCheck health with
          | Returns healthy => HealthCheckReturns healthy
          | Throws message => HealthCheckThrows (ThrownError message)
          end
      end
  end.

(** *** Purging and querying *)

(** Sequencing of steps that may throw: [x ← step; next] runs [next] on
    what [step] returns and stops at the first throw. *)
#[global] Instance outcome_bind : MBind Outcome := λ A B next step,
  match step with
  | Returns value => next value
  | Throws message => Throws message
  end.

(** [array.map(f)] where [f] may throw: the first throw ends the map. *)
Fixpoint map_outcome {A B : Type} (f : A → Outcome B) (l : list A) : Outcome (list B) :=
  match l with
  | [] => Returns []
  | x :: rest =>
      y ← f x;
      ys ← map_outcome f rest;
      Returns (y :: ys)
  end.

(** [_stripRegistryPrefix] on any value: what is not a string (or is
    falsy) is handed back by its first test. *)
Definition strip_value (collectionId : Value) : Value :=
  match collectionId with
  | Some (JString s) =>
      match _stripRegistryPrefix (JsStr s) with
      | JsStr kept => Some (JString kept)
      | _ => collectionId
      end
  | _ => collectionId
  end.

(** [{...settings, source: source}], read by property: a property set to
    [undefined] reads like a missing one. *)
Definition with_source (settings : gmap string Json) (source : Value) : gmap string Json :=
  match source with
  | Some v => <["source" := v]> settings
  | None => delete "source" settings
  end.

(** [o[k] = v] on an object kept as the list of its properties. *)
Fixpoint put {A : Type} (k : string) (v : A) (o : list (string * A)) : list (string * A) :=
  match o with
  | [] => [(k, v)]
  | (k', v') :: rest =>
      if String.eqb k' k then (k', v) :: rest else (k', v') :: put k v rest
  end.

(** [o[k]] on such an object. *)
Fixpoint read {A : Type} (k : string) (o : list (string * A)) : option A :=
  match o with
  | [] => None
  | (k', v) :: rest => if String.eqb k' k then Some v else read k rest
  end.

(** The own enumerable properties that [...v] copies: the fields of an
    object, the elements of an array and the characters of a string under
    their indices, nothing for the other values. *)
Definition spread (v : Value) : list (string * Value) :=
  match v with
  | Some (JObject fields) => List.map (fun kv => (kv.1, Some kv.2)) fields
  | Some (JArray items) => imap (fun i x => (pretty i, Some x)) items
  | Some (JString s) =>
      imap (fun i c => (pretty i, Some (JString (String c EmptyString))))
        (String.list_ascii_of_string s)
  | _ => []
  end.

(** [{ hash: r.hash, text: r.text, score: r.score, ...r.metadata }], read
    by property. *)
Definition entry (r : Json) : Outcome (list (string * Value)) :=
  hash ← get (Some r) "hash";
  text ← get (Some r) "text";
  score ← get (Some r) "score";
  metadata ← get (Some r) "metadata";
  Returns (foldl (fun o kv => put kv.1 kv.2 o)
             [("hash", hash); ("text", text); ("score", score)]
             (spread metadata)).

(** What the query methods return for one collection. *)
Record QueryResult : Type := mkQueryResult {
  hashes : list Value;
  metadata : list (list (string * Value))
}.

Definition no_results : QueryResult := mkQueryResult [] [].

(** [v.map(...)]: only an array has [map]. *)
Definition as_array (v : Value) : Outcome (list Json) :=
  match v with
  | Some (JArray items) => Returns items
  | None => Throws "Cannot read properties of undefined"
  | Some JNull => Throws "Cannot read properties of null"
  | Some _ => Throws "map is not a function"
  end.

(** [{ hashes: rows.map(r => r.hash), metadata: rows.map(r => ({...})) }] *)
Definition format_results (rows : Value) : Outcome QueryResult :=
  items ← as_array rows;
  hashes ← map_outcome (fun r => get (Some r) "hash") items;
  metadata ← map_outcome entry items;
  Returns (mkQueryResult hashes metadata).

Section Providers.

(** [getModelField] of [core/providers.js], which is not among the
    sources: for a source, the name of the settings field that holds its
    model, or a falsy value.  It is taken to return, and to name no
    property that every object inherits; [settings] is an object, read by
    its own properties. *)
Variable getModelField : Value → JsName.

(** [getModelFromSettings(settings)] *)
Definition getModelFromSettings (settings : gmap string Json) : Value :=
  match getModelField (settings !! "source") with
  | JsStr modelField =>
      if truthy_string modelField then
        or_else (settings !! modelField) (Some (JString EmptyString))
      else Some (JString EmptyString)
  | _ => Some (JString EmptyString)
  end.

(** [settings.source || 'transformers'] *)
Definition source_of (settings : gmap string Json) : Value :=
  or_else (settings !! "source") (Some (JString "transformers")).

Definition purge_request (collectionId : Value) (settings : gmap string Json) : Request :=
  {| url := "/api/plugins/similharity/chunks/purge";
     method := "POST";
     body := [("backend", Some (JString BACKEND_TYPE));
              ("collectionId", strip_value collectionId);
              ("source", source_of settings);
              ("model", getModelFromSettings settings)] |}.

(** [purgeVectorIndex(collectionId, settings)]: its outcome and the
    request it made. *)
Definition purgeVectorIndex (collectionId : Value) (settings : gmap string Json)
    (fetched : Fetched) : Outcome unit * list Request :=
  (match fetched with
   | FetchRejects message => Throws message
   | FetchResolves response =>
       if negb (ok response) then
         shown ← to_string collectionId;
         Throws ("[LanceDB] Failed to purge collection "
                 +:+ shown +:+ ": " +:+ failure_text response)
       else Returns tt
   end,
   [purge_request collectionId settings]).

(** [purgeFileVectorIndex(collectionId, settings)] *)
Definition purgeFileVectorIndex (collectionId : Value) (settings : gmap string Json)
    (fetched : Fetched) : Outcome unit * list Request :=
  purgeVectorIndex collectionId settings fetched.

Definition collections_request : Request :=
  {| url := "/api/plugins/similharity/collections"; method := "GET"; body := [] |}.

(** What [for (const x of v)] runs over: the elements of an array, the
    characters of a string; any other value is not iterable. *)
Definition iterate (v : Value) : Outcome (list Json) :=
  match v with
  | Some (JArray items) => Returns items
  | Some (JString s) =>
      Returns (List.map (fun c => JString (String c EmptyString))
                 (String.list_ascii_of_string s))
  | _ => Throws "is not iterable"
  end.

(** The loop of [purgeAllVectorIndexes]: how it ends and the requests it
    makes.  The [index]-th turn of the loop gets [purges index] from the
    network.  What a turn throws is caught; the handler logs
    [`Failed to purge ${collection.id}:`], which reads [collection.id]
    again and renders it: what that throws leaves the loop. *)
Fixpoint purge_each (settings : gmap string Json) (collections : list Json)
    (index : nat) (purges : nat → Fetched) : Outcome unit * list Request :=
  match collections with
  | [] => (Returns tt, [])
  | collection :: rest =>
      let turn : Outcome unit * list Request :=   (* try *)
        match get (Some collection) "id" with
        | Throws message => (Throws message, [])
        | Returns id =>
            match get (Some collection) "source" with
            | Throws message => (Throws message, [])
            | Returns source =>
                purgeVectorIndex id (with_source settings source) (purges index)
            end
        end in
      let next := purge_each settings rest (S index) purges in
      match turn.1 with
      | Returns _ => (next.1, (turn.2 ++ next.2)%list)
      | Throws _ =>   (* catch (e) *)
          match id ← get (Some collection) "id"; to_string id with
          | Returns _ => (next.1, (turn.2 ++ next.2)%list)
          | Throws message => (Throws message, turn.2)
          end
      end
  end.

(** What [purgeAllVectorIndexes] runs over: [data.collections || []] of
    the answer of the collections endpoint. *)
Definition listed_collections (listing : Fetched) : Outcome (list Json) :=
  match listing with
  | FetchRejects message => Throws message
  | FetchResolves response =>
      if negb (ok response) then
        Throws ("[LanceDB] Failed to get collections: " +:+ failure_text response)
      else
        data ← json response;
        listed ← get (Some data) "collections";
        iterate (or_else listed (Some (JArray [])))
  end.

(** [purgeAllVectorIndexes(settings)]: its outcome and the requests it
    made, in order. *)
Definition purgeAllVectorIndexes (settings : gmap string Json)
    (listing : Fetched) (purges : nat → Fetched) : Outcome unit * list Request :=
  match listed_collections listing with
  | Throws message => (Throws message, [collections_request])
  | Returns collections =>
      let loop := purge_each settings collections 0 purges in
      (loop.1, collections_request :: loop.2)
  end.

Definition query_request (collectionId searchText topK threshold : Value)
    (settings : gmap string Json) : Request :=
  {| url := "/api/plugins/similharity/chunks/query";
     method := "POST";
     body := [("backend", Some (JString BACKEND_TYPE));
              ("collectionId", strip_value collectionId);
              ("searchText", searchText);
              ("topK", topK);
              ("threshold", threshold);
              ("source", source_of settings);
              ("model", getModelFromSettings settings)] |}.

(** [queryCollection(collectionId, searchText, topK, settings)]: its
    outcome and the request it made.  Before the request it logs
    [`... original=${collectionId}, stripped=${actualCollectionId}`]. *)
Definition queryCollection (collectionId searchText topK : Value)
    (settings : gmap string Json) (fetched : Fetched)
    : Outcome QueryResult * list Request :=
  match original ← to_string collectionId; to_string (strip_value collectionId) with
  | Throws message => (Throws message, [])
  | Returns _ =>
      (match fetched with
       | FetchRejects message => Throws message
       | FetchResolves response =>
           if negb (ok response) then
             shown ← to_string collectionId;
             Throws ("[LanceDB] Failed to query collection "
                     +:+ shown +:+ ": " +:+ failure_text response)
           else
             data ← json response;
             results ← get (Some data) "results";
             format_results results
       end,
       [query_request collectionId searchText topK (Some (JNumber true "0"))
          settings])
  end.

(** The [try] block of one turn of [queryMultipleCollections]. *)
Definition query_turn (fetched : Fetched) : Outcome QueryResult :=
  match fetched with
  | FetchRejects message => Throws message
  | FetchResolves response =>
      if ok response then
        data ← json response;
        results ← get (Some data) "results";
        resultArray ←
          (if truthy_value results then Returns results
           else
             chunks ← get (Some data) "chunks";
             Returns (or_else chunks (Some (JArray []))));
        format_results resultArray
      else Returns no_results
  end.

(** One turn with its [catch]: what [results[collectionId]] is set to. *)
Definition turn_result (fetched : Fetched) : QueryResult :=
  match query_turn fetched with
  | Returns found => found
  | Throws _ => no_results   (* catch (error) *)
  end.

(** The object [results] of [queryMultipleCollections]: its own
    properties, and what an assignment made its prototype. *)
Record Results : Type := mkResults {
  own : list (string * QueryResult);
  prototype : option QueryResult
}.

(** [results[collectionId] = found] on a plain object: the name
    "__proto__" goes to the setter that objects inherit, which makes
    [found] the prototype of [results] and adds no property. *)
Definition assign (collectionId : string) (found : QueryResult)
    (results : Results) : Results :=
  if String.eqb collectionId "__proto__" then
    mkResults (own results) (Some found)
  else mkResults (put collectionId found (own results)) (prototype results).

(** The loop of [queryMultipleCollections]: [results] is the object being
    filled, [requests] the requests made so far. *)
Fixpoint query_each (collectionIds : list string)
    (searchText topK threshold : Value) (settings : gmap string Json)
    (index : nat) (fetches : nat → Fetched)
    (results : Results) (requests : list Request)
    : Results * list Request :=
  match collectionIds with
  | [] => (results, requests)
  | collectionId :: rest =>
      let request :=
        query_request (Some (JString collectionId)) searchText topK threshold
          settings in
      query_each rest searchText topK threshold settings (S index) fetches
        (assign collectionId (turn_result (fetches index)) results)
        (requests ++ [request])%list
  end.

(** [queryMultipleCollections(collectionIds, searchText, topK, threshold,
    settings)], for an array of collection ids. *)
Definition queryMultipleCollections (collectionIds : list string)
    (searchText topK threshold : Value) (settings : gmap string Json)
    (fetches : nat → Fetched) : Results * list Request :=
  query_each collectionIds searchText topK threshold settings 0 fetches
    (mkResults [] None) [].

End Providers.

(** Answers of the endpoints used in the examples: an ok answer with a
    JSON body, and a server error. *)
Definition answer (data : Json) : Fetched :=
  FetchResolves (mkResponse true 200 "OK" (Returns data) (Returns EmptyString)).

Definition server_error : Fetched :=
  FetchResolves (mkResponse false 500 "Internal Server Error"
                   (Throws "Unexpected token") (Returns "boom")).

End LanceDB.

(** * Properties of the backend manager *)

(** ** The timestamp object *)

Lemma Obj_get_update_eq (k : string) (v : Z) (o : list (string * Z)) :
  Obj.get k (Obj.update k v o) = Some v.
Proof.
  induction o as [|[k' v'] rest IH]; simpl.
  - by rewrite String.eqb_refl.
  - destruct (String.eqb k' k) eqn:E; simpl; rewrite E; [done | exact IH].
Qed.

Lemma Obj_get_update_ne (k j : string) (v : Z) (o : list (string * Z)) :
  k ≠ j → Obj.get j (Obj.update k v o) = Obj.get j o.
Proof.
  intros Hne. induction o as [|[k' v'] rest IH]; simpl.
  - destruct (String.eqb k j) eqn:E; [|done].
    by apply String.eqb_eq in E.
  - destruct (String.eqb k' k) eqn:E; simpl.
    + apply String.eqb_eq in E as ->.
      destruct (String.eqb k j) eqn:E'; [|done].
      by apply String.eqb_eq in E'.
    + by rewrite IH.
Qed.

Lemma Obj_get_insert_index_eq (k : string) (n : N) (v : Z) (o : list (string * Z)) :
  Obj.get k o = None → Obj.get k (Obj.insert_index k n v o) = Some v.
Proof.
  induction o as [|[k' v'] rest IH]; simpl.
  - by rewrite String.eqb_refl.
  - destruct (String.eqb k' k) eqn:E; [done|]. intros Hrest.
    destruct (Obj.array_index k') as [n'|]; [destruct (n <? n')%N|]; simpl;
      rewrite ?String.eqb_refl, ?E; auto.
Qed.

Lemma Obj_get_insert_index_ne (k j : string) (n : N) (v : Z) (o : list (string * Z)) :
  k ≠ j → Obj.get j (Obj.insert_index k n v o) = Obj.get j o.
Proof.
  intros Hne.
  assert (Hkj : String.eqb k j = false) by by apply String.eqb_neq.
  induction o as [|[k' v'] rest IH]; simpl.
  - by rewrite Hkj.
  - destruct (Obj.array_index k') as [n'|]; [destruct (n <? n')%N|]; simpl;
      rewrite ?Hkj, ?IH; done.
Qed.

Lemma Obj_get_set_eq (k : string) (v : Z) (o : list (string * Z)) :
  Obj.get k (Obj.set k v o) = Some v.
Proof.
  unfold Obj.set. destruct (Obj.get k o) as [old|] eqn:Hk.
  - apply Obj_get_update_eq.
  - destruct (Obj.array_index k) as [n|];
      [by apply Obj_get_insert_index_eq | apply Obj_get_update_eq].
Qed.

Lemma Obj_get_set_ne (k j : string) (v : Z) (o : list (string * Z)) :
  k ≠ j → Obj.get j (Obj.set k v o) = Obj.get j o.
Proof.
  intros Hne. unfold Obj.set. destruct (Obj.get k o) as [old|].
  - by apply Obj_get_update_ne.
  - destruct (Obj.array_index k) as [n|];
      [by apply Obj_get_insert_index_ne | by apply Obj_get_update_ne].
Qed.

Lemma Obj_get_remove_eq (k : string) (o : list (string * Z)) :
  Obj.get k (Obj.remove k o) = None.
Proof.
  induction o as [|[k' v'] rest IH]; simpl; [done|].
  destruct (String.eqb k' k) eqn:E; simpl; [done | by rewrite E].
Qed.

Lemma Obj_get_remove_ne (k j : string) (o : list (string * Z)) :
  k ≠ j → Obj.get j (Obj.remove k o) = Obj.get j o.
Proof.
  intros Hne. induction o as [|[k' v'] rest IH]; simpl; [done|].
  destruct (String.eqb k' k) eqn:E; simpl.
  - apply String.eqb_eq in E as ->.
    destruct (String.eqb k j) eqn:E'; [|done].
    by apply String.eqb_eq in E'.
  - by rewrite IH.
Qed.

Lemma Obj_get_elem (k : string) (v : Z) (o : list (string * Z)) :
  (k, v) ∈ o → is_Some (Obj.get k o).
Proof.
  induction o as [|[k' v'] rest IH]; simpl.
  - by intros ?%elem_of_nil.
  - intros [[= <- <-]|Hin]%elem_of_cons.
    + rewrite String.eqb_refl. by eexists.
    + destruct (String.eqb k' k); [by eexists | by apply IH].
Qed.

(** ** Name normalization *)

Lemma normalize_falsy (backendName : JsName) :
  truthy backendName = false → normalizeBackendName backendName = "standard".
Proof.
  destruct backendName as [| |s]; simpl; [done..|].
  by intros ->.
Qed.

Lemma normalize_truthy (backendName : JsName) :
  truthy_string (normalizeBackendName backendName) = true.
Proof.
  destruct backendName as [| |s]; simpl; [done..|].
  destruct (truthy_string s) eqn:E; [|done].
  destruct (BACKEND_ALIASES !! s) as [alias|] eqn:Ha; [|done].
  by destruct (truthy_string alias) eqn:E'.
Qed.

Section ManagerFacts.

Variable BACKENDS : gmap string BackendClass.

(** The cache-hit path: nothing but the timestamp moves. *)
Lemma initializeBackend_hit backendName settings throwOnFail w s backend :
  healthy_instance (normalizeBackendName backendName) s = Some backend →
  initializeBackend BACKENDS backendName settings throwOnFail w s
  = mkRun (Normal (Some backend))
      (touch (normalizeBackendName backendName) (now w) s) [].
Proof. intros H. unfold initializeBackend. by rewrite H. Qed.

Lemma healthy_instance_flag n s backend :
  healthy_instance n s = Some backend →
  backendHealthStatus s !! n = Some true.
Proof.
  unfold healthy_instance.
  destruct (backendInstances s !! n); [|done].
  by destruct (backendHealthStatus s !! n) as [[]|].
Qed.

(** A call that hands out a backend leaves it cached and healthy. *)
Lemma initializeBackend_caches backendName settings throwOnFail w s backend :
  completion (initializeBackend BACKENDS backendName settings throwOnFail w s)
  = Normal (Some backend) →
  healthy_instance (normalizeBackendName backendName)
    (after (initializeBackend BACKENDS backendName settings throwOnFail w s))
  = Some backend.
Proof.
  unfold initializeBackend, try_initialize.
  destruct (healthy_instance _ s) as [b|] eqn:Hh; simpl.
  - intros [= <-]. done.
  - destruct (BACKENDS !! _) as [cls|]; [|by destruct throwOnFail].
    destruct (attempt w) as [[]|[]|[]|[]]; destruct throwOnFail; simpl; try done.
    all: intros [= <-]; unfold healthy_instance; simpl;
      by rewrite !lookup_insert_eq.
Qed.

(** With [throwOnFail = false] the only exception that leaves
    [initializeBackend] is the [TypeError] of reading the [message] of
    [undefined] or [null], when that is what the backend threw. *)
Lemma initializeBackend_soft backendName settings w s :
  (∃ result,
     completion (initializeBackend BACKENDS backendName settings false w s)
     = Normal result)
  ∨ (completion (initializeBackend BACKENDS backendName settings false w s)
     = Abrupt CannotReadMessage
     ∧ ∃ thrown, has_message thrown = false
                 ∧ failure BACKENDS backendName w = Some (BackendError thrown)).
Proof.
  unfold initializeBackend, try_initialize, failure.
  destruct (healthy_instance _ s) as [b|]; simpl; [left; by eexists|].
  destruct (BACKENDS !! _) as [cls|]; [|left; by eexists].
  destruct (attempt w) as [[]|[]|[]|[]]; simpl;
    try (left; by eexists);
    (right; split; [done|]; eexists; split; [|reflexivity]; reflexivity).
Qed.

(** ** Cache hits *)

(** C4: when a name has a healthy cached instance, [initializeBackend]
    for that name returns this very instance, calls neither the
    constructor nor [initialize] nor [healthCheck], sets the name's
    last-access timestamp to the current time, and leaves the instance
    and health tables as they were. *)
Theorem initializeBackend_cached_instance_reused
    backendName settings throwOnFail w s backend :
  healthy_instance (normalizeBackendName backendName) s = Some backend →
  let r := initializeBackend BACKENDS backendName settings throwOnFail w s in
  completion r = Normal (Some backend)
  ∧ effects r = []
  ∧ Obj.get (normalizeBackendName backendName)
      (backendAccessTimestamps (after r)) = Some (now w)
  ∧ backendInstances (after r) = backendInstances s
  ∧ backendHealthStatus (after r) = backendHealthStatus s
  ∧ allocated (after r) = allocated s.
Proof.
  intros Hhit r. subst r.
  rewrite (initializeBackend_hit _ _ _ _ _ _ Hhit). simpl.
  repeat split. apply Obj_get_set_eq.
Qed.

(** ** Failures and [throwOnFail] *)


(** When no healthy instance is cached and the initialization fails
    (unknown name, construction error, failed health check),
    [initializeBackend] with [throwOnFail = true] throws that error; with
    [throwOnFail = false] it returns [null], unless the backend threw
    [undefined] or [null]: then reading [error.message] for the warning
    throws a [TypeError]. *)
Lemma initializeBackend_failure_modes backendName settings w s error :
  healthy_instance (normalizeBackendName backendName) s = None →
  failure BACKENDS backendName w = Some error →
  completion (initializeBackend BACKENDS backendName settings true w s)
  = Abrupt error
  ∧ completion (initializeBackend BACKENDS backendName settings false w s)
    = match error with
      | BackendError thrown =>
          if has_message thrown then Normal None else Abrupt CannotReadMessage
      | _ => Normal None
      end.
Proof.
  unfold failure, initializeBackend, try_initialize.
  intros -> Hfail.
  destruct (BACKENDS !! _) as [cls|]; simpl.
  - destruct (attempt w) as [[]|[]|[]|[]]; simpl in *; by simplify_eq.
  - by simplify_eq.
Qed.

(** ** The availability probe *)

(** [isBackendAvailable] answers [false] at once (no state change, no
    backend call) when the name's health flag is [false], and [true] at
    once when the name has a healthy cached instance; otherwise it runs
    [initializeBackend] with [throwOnFail = false] and answers [true]
    exactly when that call returned an instance.  It throws only what that
    call throws: the [TypeError] of reading the [message] of [undefined]
    or [null], when that is what the backend threw. *)
Lemma isBackendAvailable_spec backendName settings w s :
  let normalizedName := normalizeBackendName backendName in
  let r := isBackendAvailable BACKENDS backendName settings w s in
  let i := initializeBackend BACKENDS backendName settings false w s in
  ((∃ answer, completion r = Normal answer)
   ∨ (completion r = Abrupt CannotReadMessage
      ∧ ∃ thrown, has_message thrown = false
                  ∧ failure BACKENDS backendName w = Some (BackendError thrown)))
  ∧ (backendHealthStatus s !! normalizedName = Some false →
     r = mkRun (Normal false) s [])
  ∧ (is_Some (healthy_instance normalizedName s) →
     r = mkRun (Normal true) s [])
  ∧ (backendHealthStatus s !! normalizedName ≠ Some false →
     healthy_instance normalizedName s = None →
     after r = after i ∧ effects r = effects i
     ∧ (completion r = Normal true ↔
        ∃ backend, completion i = Normal (Some backend))
     ∧ (completion r = Normal false ↔ completion i = Normal None)).
Proof.
  intros n r i. subst r i. unfold isBackendAvailable. fold n.
  destruct (initializeBackend_soft backendName settings w s)
    as [[result Hsoft]|[Hthrown Hwhy]].
  2:{ rewrite Hthrown.
      destruct (healthy_instance n s) as [b|] eqn:Hi.
      - rewrite (healthy_instance_flag _ _ _ Hi).
        split; [left; by eexists|]. by repeat split.
      - destruct (backendHealthStatus s !! n) as [[]|] eqn:Hh; simpl.
        + split; [by right|]. split; [done|]. split; [by intros [? ?]|].
          intros _ _. repeat split; try done. by intros [? ?].
        + split; [left; by eexists|]. split; [done|]. split; [by intros [? ?]|].
          by intros [].
        + split; [by right|]. split; [done|]. split; [by intros [? ?]|].
          intros _ _. repeat split; try done. by intros [? ?]. }
  rewrite Hsoft.
  destruct (healthy_instance n s) as [b|] eqn:Hi.
  - rewrite (healthy_instance_flag _ _ _ Hi).
    split; [left; by eexists|]. by repeat split.
  - assert (Hanswer :
      (Normal (bool_decide (is_Some result)) = Normal true
       ↔ ∃ backend : Backend, @Normal (option Backend) result = Normal (Some backend))
      ∧ (Normal (bool_decide (is_Some result)) = Normal false
         ↔ @Normal (option Backend) result = Normal None)).
    { destruct result as [b|]; simpl.
      - split; split; [by eexists | done | done | done].
      - split; split; [done | by intros [? ?] | done | done]. }
    destruct (backendHealthStatus s !! n) as [[]|] eqn:Hh; simpl.
    + split; [left; by eexists|]. split; [done|]. split; [by intros [? ?]|].
      intros _ _. by repeat split; apply Hanswer.
    + split; [left; by eexists|]. split; [done|]. split; [by intros [? ?]|].
      by intros [].
    + split; [left; by eexists|]. split; [done|]. split; [by intros [? ?]|].
      intros _ _. by repeat split; apply Hanswer.
Qed.

End ManagerFacts.

(** ** Reset *)

Lemma reset_all_timestamps names s :
  backendAccessTimestamps (foldl reset_one s names) = backendAccessTimestamps s.
Proof. revert s. induction names as [|x l IH]; intros s; simpl; [done | by rewrite IH]. Qed.

Lemma reset_all_allocated names s :
  allocated (foldl reset_one s names) = allocated s.
Proof. revert s. induction names as [|x l IH]; intros s; simpl; [done | by rewrite IH]. Qed.

Lemma reset_all_instances names s k :
  backendInstances (foldl reset_one s names) !! k
  = if decide (k ∈ names) then None else backendInstances s !! k.
Proof.
  revert s. induction names as [|x l IH]; intros s; simpl; [done|].
  rewrite IH. simpl.
  destruct (decide (k = x)) as [->|Hne].
  - rewrite lookup_delete_eq. rewrite (decide_True _ _ (list_elem_of_here x l)).
    by case_decide.
  - rewrite lookup_delete_ne by done.
    destruct (decide (k ∈ l)) as [Hin|Hout].
    + by rewrite decide_True by (by right).
    + rewrite decide_False; [done|].
      intros [?|?]%elem_of_cons; done.
Qed.

Lemma reset_all_health names s k :
  backendHealthStatus (foldl reset_one s names) !! k
  = if decide (k ∈ names) then None else backendHealthStatus s !! k.
Proof.
  revert s. induction names as [|x l IH]; intros s; simpl; [done|].
  rewrite IH. simpl.
  destruct (decide (k = x)) as [->|Hne].
  - rewrite lookup_delete_eq. rewrite (decide_True _ _ (list_elem_of_here x l)).
    by case_decide.
  - rewrite lookup_delete_ne by done.
    destruct (decide (k ∈ l)) as [Hin|Hout].
    + by rewrite decide_True by (by right).
    + rewrite decide_False; [done|].
      intros [?|?]%elem_of_cons; done.
Qed.

Lemma elem_of_keys {V} (m : gmap string V) (k : string) :
  k ∈ (map_to_list m).*1 ↔ is_Some (m !! k).
Proof.
  rewrite list_elem_of_fmap. split.
  - intros [[k' v] [-> Hin]]. apply elem_of_map_to_list in Hin. by eexists.
  - intros [v Hv]. exists (k, v). split; [done|]. by apply elem_of_map_to_list.
Qed.

(** C10: [resetBackendHealth], for one name or for all, leaves the
    last-access timestamp table exactly as it was.  For one name it removes
    that name's instance and health flag and touches no other name; for all
    names it empties the health table and removes the instance of every
    name that had a health flag. *)
Theorem resetBackendHealth_keeps_timestamps backendName s :
  let s' := resetBackendHealth backendName s in
  let n := normalizeBackendName backendName in
  backendAccessTimestamps s' = backendAccessTimestamps s
  ∧ (truthy backendName = true →
     backendInstances s' !! n = None
     ∧ backendHealthStatus s' !! n = None
     ∧ ∀ k, k ≠ n →
         backendInstances s' !! k = backendInstances s !! k
         ∧ backendHealthStatus s' !! k = backendHealthStatus s !! k)
  ∧ (truthy backendName = false →
     ∀ k,
       backendHealthStatus s' !! k = None
       ∧ backendInstances s' !! k
         = if decide (is_Some (backendHealthStatus s !! k)) then None
           else backendInstances s !! k).
Proof.
  intros s' n. subst s' n. unfold resetBackendHealth.
  destruct (truthy backendName) eqn:Ht.
  - split; [done|]. split; [|done]. intros _. simpl.
    rewrite !lookup_delete_eq. repeat split; by rewrite lookup_delete_ne.
  - split; [apply reset_all_timestamps|]. split; [done|]. intros _ k.
    rewrite reset_all_health, reset_all_instances.
    split.
    + case_decide as Hk; [done|].
      rewrite elem_of_keys in Hk.
      by apply eq_None_not_Some.
    + repeat case_decide; try done; by rewrite elem_of_keys in *.
Qed.

(** ** What every reachable state satisfies *)

Lemma normalize_string (s : string) :
  normalizeBackendName (JsStr s)
  = if truthy_string s then
      if decide (s = "vectra") then "standard" else s
    else "standard".
Proof.
  unfold normalizeBackendName, BACKEND_ALIASES.
  destruct (truthy_string s); [|done].
  case_decide as Hs.
  - subst s. reflexivity.
  - by rewrite lookup_singleton_ne.
Qed.

Lemma normalize_idempotent (backendName : JsName) :
  normalizeBackendName (JsStr (normalizeBackendName backendName))
  = normalizeBackendName backendName.
Proof.
  destruct backendName as [| |s]; [reflexivity..|].
  rewrite (normalize_string s).
  destruct (truthy_string s) eqn:Hs; [|reflexivity].
  case_decide as Hv; [reflexivity|].
  rewrite normalize_string, Hs. by rewrite decide_False.
Qed.

Lemma evict_cases (s : State) :
  evictLRUBackendIfNeeded s = s
  ∨ ∃ oldestBackend, evictLRUBackendIfNeeded s = forget oldestBackend s.
Proof.
  unfold evictLRUBackendIfNeeded.
  destruct (_ <=? _)%nat; [|by left].
  destruct (oldest_scan _ _ _) as [o|]; [|by left].
  destruct (truthy_string o); [right; by eexists | by left].
Qed.

Section Reachable.

Variable BACKENDS : gmap string BackendClass.


Lemma initial_wellformed : wellformed BACKENDS initial.
Proof. split; simpl; intros k; [by intros [? ?] | split; [by intros [? ?] | done]]. Qed.

Lemma forget_wellformed name s : wellformed BACKENDS s → wellformed BACKENDS (forget name s).
Proof.
  intros [Hreg Hiff]. split; simpl; intros k.
  - destruct (decide (k = name)) as [->|Hne].
    + rewrite lookup_delete_eq. by intros [? ?].
    + rewrite lookup_delete_ne by done. apply Hreg.
  - destruct (decide (k = name)) as [->|Hne].
    + rewrite !lookup_delete_eq. split; [by intros [? ?] | done].
    + rewrite !lookup_delete_ne by done. apply Hiff.
Qed.

Lemma reset_one_wellformed s name : wellformed BACKENDS s → wellformed BACKENDS (reset_one s name).
Proof.
  intros [Hreg Hiff]. split; simpl; intros k.
  - destruct (decide (k = name)) as [->|Hne].
    + rewrite lookup_delete_eq. by intros [? ?].
    + rewrite lookup_delete_ne by done. apply Hreg.
  - destruct (decide (k = name)) as [->|Hne].
    + rewrite !lookup_delete_eq. split; [by intros [? ?] | done].
    + rewrite !lookup_delete_ne by done. apply Hiff.
Qed.

Lemma evict_wellformed s : wellformed BACKENDS s → wellformed BACKENDS (evictLRUBackendIfNeeded s).
Proof.
  intros Hs. destruct (evict_cases s) as [->|[o ->]]; [done|].
  by apply forget_wellformed.
Qed.

Lemma touch_wellformed name t s : wellformed BACKENDS s → wellformed BACKENDS (touch name t s).
Proof. by intros [Hreg Hiff]. Qed.

Lemma allocate_wellformed s : wellformed BACKENDS s → wellformed BACKENDS (allocate s).
Proof. by intros [Hreg Hiff]. Qed.

(** Recording a failure for a name that holds no instance. *)
Lemma set_health_false_wellformed name s :
  backendInstances s !! name = None →
  wellformed BACKENDS s → wellformed BACKENDS (set_health name false s).
Proof.
  intros Hnone [Hreg Hiff]. split; simpl; intros k; [apply Hreg|].
  destruct (decide (k = name)) as [->|Hne].
  - rewrite lookup_insert_eq, Hnone. split; [by intros [? ?] | done].
  - rewrite lookup_insert_ne by done. apply Hiff.
Qed.

(** Caching a healthy instance under a registered, normalized name. *)
Lemma cache_wellformed backendName backend t s :
  is_Some (BACKENDS !! normalizeBackendName backendName) →
  wellformed BACKENDS s →
  wellformed BACKENDS
    (touch (normalizeBackendName backendName) t
       (set_health (normalizeBackendName backendName) true
          (set_instance (normalizeBackendName backendName) backend s))).
Proof.
  intros Hknown [Hreg Hiff]. split; simpl; intros k.
  - destruct (decide (k = normalizeBackendName backendName)) as [->|Hne].
    + intros _. split; [done | apply normalize_idempotent].
    + rewrite lookup_insert_ne by done. apply Hreg.
  - destruct (decide (k = normalizeBackendName backendName)) as [->|Hne].
    + rewrite !lookup_insert_eq. split; [done | by eexists].
    + rewrite !lookup_insert_ne by done. apply Hiff.
Qed.

Lemma miss_no_instance n s :
  wellformed BACKENDS s → healthy_instance n s = None → backendInstances s !! n = None.
Proof.
  intros [_ Hiff] Hmiss. unfold healthy_instance in Hmiss.
  destruct (backendInstances s !! n) as [b|] eqn:Hb; [|done].
  assert (Hflag : backendHealthStatus s !! n = Some true)
    by (apply Hiff; rewrite Hb; by eexists).
  by rewrite Hflag in Hmiss.
Qed.

Lemma initializeBackend_wellformed backendName settings throwOnFail w s :
  wellformed BACKENDS s →
  wellformed BACKENDS (after (initializeBackend BACKENDS backendName settings throwOnFail w s)).
Proof.
  intros Hs. unfold initializeBackend.
  destruct (healthy_instance _ s) as [b|] eqn:Hh; simpl.
  { by apply touch_wellformed. }
  pose proof (evict_wellformed s Hs) as He.
  assert (Hnone : backendInstances (evictLRUBackendIfNeeded s)
                    !! normalizeBackendName backendName = None).
  { pose proof (miss_no_instance _ _ Hs Hh) as Hn.
    destruct (evict_cases s) as [->|[o ->]]; [done|]. simpl.
    destruct (decide (normalizeBackendName backendName = o)) as [->|Hne];
      [apply lookup_delete_eq | by rewrite lookup_delete_ne]. }
  destruct (BACKENDS !! _) as [cls|] eqn:Hcls; [|by destruct throwOnFail].
  unfold try_initialize.
  destruct (attempt w) as [[]|[]|[]|[]]; destruct throwOnFail; simpl.
  all: try (apply cache_wellformed; [by rewrite Hcls | by apply allocate_wellformed]).
  all: repeat apply set_health_false_wellformed; simpl;
    rewrite ?lookup_insert_ne; try done; by apply allocate_wellformed.
Qed.

Lemma resetBackendHealth_wellformed backendName s :
  wellformed BACKENDS s → wellformed BACKENDS (resetBackendHealth backendName s).
Proof.
  intros Hs. unfold resetBackendHealth.
  destruct (truthy backendName); [by apply reset_one_wellformed|].
  generalize (map_to_list (backendHealthStatus s)).*1. intros names.
  revert s Hs. induction names as [|x l IH]; intros s Hs; simpl; [done|].
  apply IH. by apply reset_one_wellformed.
Qed.

Lemma isBackendAvailable_wellformed backendName settings w s :
  wellformed BACKENDS s →
  wellformed BACKENDS (after (isBackendAvailable BACKENDS backendName settings w s)).
Proof.
  intros Hs. unfold isBackendAvailable.
  pose proof (initializeBackend_wellformed backendName settings false w s Hs).
  destruct (backendHealthStatus s !! normalizeBackendName backendName) as [[]|];
    destruct (healthy_instance (normalizeBackendName backendName) s);
    try done; by destruct (completion _).
Qed.

Lemma perform_wellformed s c : wellformed BACKENDS s → wellformed BACKENDS (perform BACKENDS s c).
Proof.
  intros Hs. destruct c as [[] w]; unfold perform; simpl.
  - by apply initializeBackend_wellformed.
  - by apply initializeBackend_wellformed.
  - unfold getBackendForCollection.
    destruct (truthy _); [by apply initializeBackend_wellformed | done].
  - by apply isBackendAvailable_wellformed.
  - by apply resetBackendHealth_wellformed.
Qed.

Lemma perform_all_wellformed calls s :
  wellformed BACKENDS s → wellformed BACKENDS (perform_all BACKENDS calls s).
Proof.
  revert s. induction calls as [|c l IH]; intros s Hs; simpl; [done|].
  apply IH. by apply perform_wellformed.
Qed.

End Reachable.

(** ** The shipped registry *)


Lemma cached_names_distinct (s : State) :
  NoDup (map_to_list (backendInstances s)).*1.
Proof. apply NoDup_fst_map_to_list. Qed.

Lemma wellformed_size BACKENDS s :
  wellformed BACKENDS s → (size (backendInstances s) ≤ size BACKENDS)%nat.
Proof.
  intros [Hreg _].
  rewrite <- (size_dom (backendInstances s)), <- (size_dom BACKENDS).
  apply subseteq_size. intros k Hk.
  apply elem_of_dom. apply Hreg. by apply elem_of_dom.
Qed.

(** C3: after any sequence of calls to [initializeBackend], [getBackend],
    [getBackendForCollection], [isBackendAvailable] and
    [resetBackendHealth], starting from the empty cache, the cache holds
    each name at most once, every cached name is a normalized name (so an
    alias never has a slot of its own), and at most [MAX_CACHED_BACKENDS]
    = 5 instances are cached. *)
Theorem cache_one_instance_per_name_and_bounded (calls : list (Call * Env)) :
  let s := perform_all BACKENDS calls initial in
  NoDup (map_to_list (backendInstances s)).*1
  ∧ (∀ k, is_Some (backendInstances s !! k) →
       normalizeBackendName (JsStr k) = k)
  ∧ (size (backendInstances s) ≤ MAX_CACHED_BACKENDS)%nat.
Proof.
  intros s.
  assert (Hwf : wellformed BACKENDS s)
    by apply perform_all_wellformed, initial_wellformed.
  split; [apply cached_names_distinct|]. split.
  - intros k Hk. by apply (cached_registered _ _ Hwf).
  - pose proof (wellformed_size _ _ Hwf) as Hsize.
    assert (size BACKENDS = 4%nat) as Hfour by reflexivity.
    unfold MAX_CACHED_BACKENDS. lia.
Qed.

(** C5: "vectra" and "standard" normalize to the same key.  In any state
    reached from the empty cache, once [initializeBackend] under one of
    the two names has returned an instance, [initializeBackend] under
    either name returns that same instance without calling the backend
    class, and the cache holds it in the one slot "standard": there is no
    slot "vectra". *)
Theorem vectra_and_standard_share_one_slot
    (registry : gmap string BackendClass) (calls : list (Call * Env))
    (first second : string) settings1 settings2 throw1 throw2 w1 w2 backend :
  first ∈ ["vectra"; "standard"] →
  second ∈ ["vectra"; "standard"] →
  let s := perform_all registry calls initial in
  let r1 := initializeBackend registry (JsStr first) settings1 throw1 w1 s in
  let r2 := initializeBackend registry (JsStr second) settings2 throw2 w2 (after r1) in
  completion r1 = Normal (Some backend) →
  normalizeBackendName (JsStr first) = normalizeBackendName (JsStr second)
  ∧ completion r2 = Normal (Some backend)
  ∧ effects r2 = []
  ∧ backendInstances (after r2) !! "standard" = Some backend
  ∧ backendInstances (after r2) !! "vectra" = None.
Proof.
  intros Hfirst Hsecond s r1 r2 Hdone.
  assert (Hn1 : normalizeBackendName (JsStr first) = "standard").
  { set_unfold in Hfirst. by destruct Hfirst as [->|[->|[]]]. }
  assert (Hn2 : normalizeBackendName (JsStr second) = "standard").
  { set_unfold in Hsecond. by destruct Hsecond as [->|[->|[]]]. }
  pose proof (initializeBackend_caches _ _ _ _ _ _ _ Hdone) as Hcached.
  fold r1 in Hcached. rewrite Hn1 in Hcached.
  assert (Hhit : healthy_instance (normalizeBackendName (JsStr second)) (after r1)
                 = Some backend) by by rewrite Hn2.
  assert (Hr2 : r2 = mkRun (Normal (Some backend))
                  (touch (normalizeBackendName (JsStr second)) (now w2) (after r1)) [])
    by apply (initializeBackend_hit _ _ _ _ _ _ _ Hhit).
  split; [by rewrite Hn1, Hn2|]. rewrite Hr2. simpl.
  split; [done|]. split; [done|]. split.
  - unfold healthy_instance in Hcached.
    destruct (backendInstances (after r1) !! "standard") as [b|]; [|done].
    by destruct (backendHealthStatus (after r1) !! "standard") as [[]|];
      simplify_eq.
  - assert (Hwf : wellformed registry (after r1)).
    { apply initializeBackend_wellformed.
      apply perform_all_wellformed, initial_wellformed. }
    apply eq_None_not_Some. intros Hsome.
    by destruct (cached_registered _ _ Hwf _ Hsome) as [_ ?].
Qed.

(** C9: a falsy backend name ([undefined], [null] or the empty string)
    normalizes to "standard"; [initializeBackend] and [isBackendAvailable]
    then complete, change the state and call the backend exactly as for
    the name "standard", and never report an unknown backend. *)
Theorem falsy_name_means_standard backendName settings throwOnFail w s :
  truthy backendName = false →
  normalizeBackendName backendName = "standard"
  ∧ initializeBackend BACKENDS backendName settings throwOnFail w s
    = initializeBackend BACKENDS (JsStr "standard") settings throwOnFail w s
  ∧ isBackendAvailable BACKENDS backendName settings w s
    = isBackendAvailable BACKENDS (JsStr "standard") settings w s
  ∧ ∀ name normalizedName,
      completion (initializeBackend BACKENDS backendName settings throwOnFail w s)
      ≠ Abrupt (UnknownBackend name normalizedName).
Proof.
  intros Hfalsy.
  pose proof (normalize_falsy _ Hfalsy) as Hn.
  assert (Hstd : normalizeBackendName (JsStr "standard") = "standard")
    by reflexivity.
  assert (Hreg : BACKENDS !! "standard" = Some StandardBackend) by reflexivity.
  assert (Hinit : ∀ t,
    initializeBackend BACKENDS backendName settings t w s
    = initializeBackend BACKENDS (JsStr "standard") settings t w s).
  { intros t. unfold initializeBackend. by rewrite Hn, Hstd, Hreg. }
  split; [done|]. split; [apply Hinit|]. split.
  - unfold isBackendAvailable. by rewrite Hn, Hstd, !Hinit.
  - intros name normalizedName.
    unfold initializeBackend, try_initialize. rewrite Hn, Hreg.
    destruct (healthy_instance "standard" s); [done|].
    by destruct (attempt w) as [[]|[]|[]|[]]; destruct throwOnFail.
Qed.

(** ** A failed name is constructed again *)




(** ** Eviction *)

(** What the scan of [evictLRUBackendIfNeeded] returns: the first entry of
    the timestamp table whose timestamp is minimal. *)
Lemma oldest_scan_acc entries name0 t0 :
  ∃ name t,
    oldest_scan entries (Some name0) (Some t0) = Some name
    ∧ t ≤ t0
    ∧ ((name, t) = (name0, t0) ∨ (name, t) ∈ entries)
    ∧ ∀ e, e ∈ entries → t ≤ e.2.
Proof.
  revert name0 t0. induction entries as [|[n ts] rest IH]; intros name0 t0; simpl.
  - exists name0, t0. split; [done|]. split; [lia|]. split; [by left|].
    intros e He. by apply elem_of_nil in He.
  - destruct (ts <? t0) eqn:Hlt.
    + apply Z.ltb_lt in Hlt.
      destruct (IH n ts) as (name & t & Hscan & Hle & Hin & Hmin).
      exists name, t. split; [done|]. split; [lia|]. split.
      * right. destruct Hin as [->|Hin]; [by left | by right].
      * intros e [->|He]%elem_of_cons; [simpl; lia | by apply Hmin].
    + apply Z.ltb_ge in Hlt.
      destruct (IH name0 t0) as (name & t & Hscan & Hle & Hin & Hmin).
      exists name, t. split; [done|]. split; [done|]. split.
      * destruct Hin as [Heq|Hin]; [by left | right; by right].
      * intros e [->|He]%elem_of_cons; [simpl; lia | by apply Hmin].
Qed.

Lemma oldest_scan_minimal entries name :
  oldest_scan entries None None = Some name →
  ∃ t, (name, t) ∈ entries ∧ ∀ e, e ∈ entries → t ≤ e.2.
Proof.
  destruct entries as [|[n ts] rest]; simpl; [done|].
  destruct (oldest_scan_acc rest n ts) as (name' & t & Hscan & Hle & Hin & Hmin).
  rewrite Hscan. intros [= <-]. exists t. split.
  - destruct Hin as [->|Hin]; [by left | by right].
  - intros e [->|He]%elem_of_cons; [done | by apply Hmin].
Qed.


(** The victim is chosen from the timestamp table.  On
    [stale_timestamp_state], tables that need more registered names than
    the four of [BACKENDS], the cache is full (five instances) and the
    entry selected is "chroma", whose timestamp is the oldest of the table
    but which holds no instance: no instance is removed. *)
Lemma eviction_selects_name_without_instance :
  let s := stale_timestamp_state in
  size (backendInstances s) = MAX_CACHED_BACKENDS
  ∧ backendInstances s !! "chroma" = None
  ∧ oldest_scan (backendAccessTimestamps s) None None = Some "chroma"
  ∧ evictLRUBackendIfNeeded s = forget "chroma" s
  ∧ backendInstances (evictLRUBackendIfNeeded s) = backendInstances s
  ∧ backendInstances (evictLRUBackendIfNeeded s) !! "standard"
    = Some (mkBackend StandardBackend 1)
  ∧ size (backendInstances (evictLRUBackendIfNeeded s)) = MAX_CACHED_BACKENDS.
Proof. vm_compute. by repeat split. Qed.


Lemma stale_timestamp_state_reached :
  perform_all BACKENDS_extended stale_timestamp_calls initial
  = stale_timestamp_state.
Proof. vm_compute. reflexivity. Qed.

(** From there, initializing "chroma" again caches a sixth instance. *)
Lemma extended_registry_exceeds_cap :
  size (backendInstances
          (after (initializeBackend BACKENDS_extended (JsStr "chroma") None true
                    (healthy_at 7) stale_timestamp_state)))
  = 6%nat.
Proof. reflexivity. Qed.

(** Without stale entries the scan does pick a cached instance: when every
    name of the timestamp table holds an instance, the selected name does
    too, and no entry of the table is older. *)
Lemma eviction_selects_oldest_when_no_stale_entry (s : State) name :
  (∀ e, e ∈ backendAccessTimestamps s → is_Some (backendInstances s !! e.1)) →
  oldest_scan (backendAccessTimestamps s) None None = Some name →
  is_Some (backendInstances s !! name)
  ∧ ∃ t, (name, t) ∈ backendAccessTimestamps s
         ∧ ∀ e, e ∈ backendAccessTimestamps s → t ≤ e.2.
Proof.
  intros Hall Hscan.
  destruct (oldest_scan_minimal _ _ Hscan) as (t & Hin & Hmin).
  split; [apply (Hall _ Hin) | by exists t].
Qed.

(** ** Without resets the eviction keeps the cap *)

Lemma oldest_scan_nonempty (entries : list (string * Z)) :
  entries ≠ [] → is_Some (oldest_scan entries None None).
Proof.
  destruct entries as [|[n ts] rest]; [done|]. intros _. simpl.
  destruct (oldest_scan_acc rest n ts) as (name & t & -> & _). by eexists.
Qed.

Section NoReset.

Variable registry : gmap string BackendClass.

Lemma initial_in_step : in_step initial.
Proof.
  split; simpl.
  - intros k. rewrite lookup_empty. split; by intros [? ?].
  - rewrite map_size_empty. unfold MAX_CACHED_BACKENDS. lia.
Qed.

(** After the eviction step there is room for one more instance. *)
Lemma evict_in_step s :
  wellformed registry s → in_step s →
  in_step (evictLRUBackendIfNeeded s)
  ∧ (size (backendInstances (evictLRUBackendIfNeeded s)) < MAX_CACHED_BACKENDS)%nat.
Proof.
  intros Hwf [Hiff Hcap]. unfold evictLRUBackendIfNeeded.
  destruct (MAX_CACHED_BACKENDS <=? size (backendInstances s))%nat eqn:Hfull.
  2:{ apply Nat.leb_gt in Hfull. by split. }
  apply Nat.leb_le in Hfull.
  assert (Hne : backendAccessTimestamps s ≠ []).
  { destruct (map_size_ne_0_lookup_1 (backendInstances s)) as [k Hk].
    - unfold MAX_CACHED_BACKENDS in Hfull. lia.
    - apply Hiff in Hk as [t Ht]. by intros Heq; rewrite Heq in Ht. }
  destruct (oldest_scan_nonempty _ Hne) as [name Hscan]. rewrite Hscan.
  destruct (oldest_scan_minimal _ _ Hscan) as (t & Hin & _).
  assert (Hcached : is_Some (backendInstances s !! name))
    by (apply Hiff; by eapply Obj_get_elem).
  destruct (cached_registered _ _ Hwf _ Hcached) as [_ Hnorm].
  pose proof (normalize_truthy (JsStr name)) as Htruthy.
  rewrite Hnorm in Htruthy. rewrite Htruthy.
  assert (Hsize : size (backendInstances (forget name s))
                  = pred (size (backendInstances s)))
    by by apply map_size_delete_Some.
  split; [split|]; simpl.
  - intros k. destruct (decide (k = name)) as [->|Hk].
    + rewrite Obj_get_remove_eq, lookup_delete_eq. split; by intros [? ?].
    + rewrite Obj_get_remove_ne, lookup_delete_ne by done. apply Hiff.
  - simpl in Hsize. lia.
  - simpl in Hsize. unfold MAX_CACHED_BACKENDS in *. lia.
Qed.

Lemma touch_cached_in_step n t s :
  is_Some (backendInstances s !! n) → in_step s → in_step (touch n t s).
Proof.
  intros Hn [Hiff Hcap]. split; simpl; [|done].
  intros k. destruct (decide (k = n)) as [->|Hk].
  - rewrite Obj_get_set_eq. split; [done | by eexists].
  - rewrite Obj_get_set_ne by done. apply Hiff.
Qed.

Lemma cache_in_step n backend t s :
  in_step s → (size (backendInstances s) < MAX_CACHED_BACKENDS)%nat →
  in_step (touch n t (set_health n true (set_instance n backend s))).
Proof.
  intros [Hiff Hcap] Hroom. split; simpl.
  - intros k. destruct (decide (k = n)) as [->|Hk].
    + rewrite Obj_get_set_eq, lookup_insert_eq. split; by eexists.
    + rewrite Obj_get_set_ne, lookup_insert_ne by done. apply Hiff.
  - rewrite map_size_insert. destruct (backendInstances s !! n); simpl; lia.
Qed.

Lemma initializeBackend_in_step backendName settings throwOnFail w s :
  wellformed registry s → in_step s →
  in_step (after (initializeBackend registry backendName settings throwOnFail w s)).
Proof.
  intros Hwf Hs. unfold initializeBackend.
  destruct (healthy_instance _ s) as [b|] eqn:Hh; simpl.
  { apply touch_cached_in_step; [|done].
    unfold healthy_instance in Hh.
    destruct (backendInstances s !! _); [by eexists | done]. }
  destruct (evict_in_step s Hwf Hs) as [He Hroom].
  destruct (registry !! _) as [cls|]; [|by destruct throwOnFail].
  unfold try_initialize.
  destruct (attempt w) as [[]|[]|[]|[]]; destruct throwOnFail; simpl.
  all: try (by apply cache_in_step; [destruct He|]).
  all: by destruct He.
Qed.

Lemma perform_in_step s c :
  is_reset c.1 = false →
  wellformed registry s → in_step s → in_step (perform registry s c).
Proof.
  intros Hc Hwf Hs. destruct c as [[] w]; unfold perform; simpl in *.
  - by apply initializeBackend_in_step.
  - by apply initializeBackend_in_step.
  - unfold getBackendForCollection.
    destruct (truthy _); [by apply initializeBackend_in_step | done].
  - unfold isBackendAvailable.
    pose proof (initializeBackend_in_step backendName settings false w s Hwf Hs).
    destruct (backendHealthStatus s !! normalizeBackendName backendName) as [[]|];
      destruct (healthy_instance (normalizeBackendName backendName) s);
      try done; by destruct (completion _).
  - done.
Qed.

(** A sequence of calls without [resetBackendHealth], over any registry,
    keeps the timestamp table and the instance table in step and the
    cache within [MAX_CACHED_BACKENDS]. *)
Lemma perform_all_in_step calls s :
  Forall (fun c => is_reset c.1 = false) calls →
  wellformed registry s → in_step s →
  in_step (perform_all registry calls s).
Proof.
  revert s. induction calls as [|c l IH]; intros s Hcalls Hwf Hs; simpl; [done|].
  apply Forall_cons in Hcalls as [Hc Hl].
  apply IH; [done | by apply perform_wellformed | by apply perform_in_step].
Qed.

End NoReset.

(** ** A backend that throws nothing to read a message from *)



(** ** The theorems above at concrete inputs *)

(** "lancedb" is initialized twice; the second call is a cache hit. *)
Lemma initializeBackend_cached_instance_reused_witness :
  let s := after (initializeBackend BACKENDS (JsStr "lancedb") None true
                    (healthy_at 1) initial) in
  let r := initializeBackend BACKENDS (JsStr "lancedb") None true
             (healthy_at 2) s in
  healthy_instance "lancedb" s = Some (mkBackend LanceDBBackend 0)
  ∧ completion r = Normal (Some (mkBackend LanceDBBackend 0))
  ∧ effects r = []
  ∧ Obj.get "lancedb" (backendAccessTimestamps (after r)) = Some 2
  ∧ backendInstances (after r) = backendInstances s
  ∧ backendHealthStatus (after r) = backendHealthStatus s
  ∧ allocated (after r) = allocated s.
Proof.
  intros s r. split; [reflexivity|].
  apply (initializeBackend_cached_instance_reused BACKENDS (JsStr "lancedb")
           None true (healthy_at 2) s (mkBackend LanceDBBackend 0)).
  reflexivity.
Defined.

(** An unregistered name, with and without [throwOnFail]. *)
Lemma initializeBackend_failure_modes_unknown_name :
  healthy_instance (normalizeBackendName (JsStr "weaviate")) initial = None
  ∧ failure BACKENDS (JsStr "weaviate") (healthy_at 1)
    = Some (UnknownBackend (JsStr "weaviate") "weaviate")
  ∧ completion (initializeBackend BACKENDS (JsStr "weaviate") None true
                  (healthy_at 1) initial)
    = Abrupt (UnknownBackend (JsStr "weaviate") "weaviate")
  ∧ completion (initializeBackend BACKENDS (JsStr "weaviate") None false
                  (healthy_at 1) initial)
    = Normal None.
Proof.
  split; [reflexivity|]. split; [reflexivity|].
  apply (initializeBackend_failure_modes BACKENDS (JsStr "weaviate") None
           (healthy_at 1) initial
           (UnknownBackend (JsStr "weaviate") "weaviate"));
    reflexivity.
Defined.

(** A failed health probe, with and without [throwOnFail]. *)
Lemma initializeBackend_failed_probe_example :
  completion (initializeBackend BACKENDS (JsStr "milvus") None true
                (unhealthy_at 1) initial)
  = Abrupt (FailedHealthCheck "milvus")
  ∧ completion (initializeBackend BACKENDS (JsStr "milvus") None false
                  (unhealthy_at 1) initial)
    = Normal None.
Proof. by vm_compute. Qed.

(** "qdrant" has failed its probe: the availability check answers [false]
    without touching the backend. *)
Lemma isBackendAvailable_spec_flagged_name :
  let s := after (initializeBackend BACKENDS (JsStr "qdrant") None false
                    (unhealthy_at 10) initial) in
  backendHealthStatus s !! "qdrant" = Some false
  ∧ isBackendAvailable BACKENDS (JsStr "qdrant") None (healthy_at 20) s
    = mkRun (Normal false) s [].
Proof.
  intros s. split; [reflexivity|].
  apply (proj1 (proj2 (isBackendAvailable_spec BACKENDS (JsStr "qdrant") None
                         (healthy_at 20) s))).
  reflexivity.
Defined.


(** "vectra" is initialized, then "standard" is requested. *)
Lemma vectra_and_standard_share_one_slot_witness :
  let r1 := initializeBackend BACKENDS (JsStr "vectra") None true
              (healthy_at 1) initial in
  let r2 := initializeBackend BACKENDS (JsStr "standard") None true
              (healthy_at 2) (after r1) in
  completion r1 = Normal (Some (mkBackend StandardBackend 0))
  ∧ normalizeBackendName (JsStr "vectra") = normalizeBackendName (JsStr "standard")
  ∧ completion r2 = Normal (Some (mkBackend StandardBackend 0))
  ∧ effects r2 = []
  ∧ backendInstances (after r2) !! "standard" = Some (mkBackend StandardBackend 0)
  ∧ backendInstances (after r2) !! "vectra" = None.
Proof.
  intros r1 r2. split; [reflexivity|].
  apply (vectra_and_standard_share_one_slot BACKENDS [] "vectra" "standard"
           None None true true (healthy_at 1) (healthy_at 2)
           (mkBackend StandardBackend 0)).
  - apply list_elem_of_here.
  - apply list_elem_of_further, list_elem_of_here.
  - reflexivity.
Defined.

(** [null] as the backend name. *)
Lemma falsy_name_means_standard_witness :
  truthy JsNull = false
  ∧ normalizeBackendName JsNull = "standard"
  ∧ initializeBackend BACKENDS JsNull None true (healthy_at 1) initial
    = initializeBackend BACKENDS (JsStr "standard") None true (healthy_at 1) initial
  ∧ isBackendAvailable BACKENDS JsNull None (healthy_at 1) initial
    = isBackendAvailable BACKENDS (JsStr "standard") None (healthy_at 1) initial
  ∧ ∀ name normalizedName,
      completion (initializeBackend BACKENDS JsNull None true (healthy_at 1) initial)
      ≠ Abrupt (UnknownBackend name normalizedName).
Proof.
  split; [reflexivity|].
  apply (falsy_name_means_standard JsNull None true (healthy_at 1) initial).
  reflexivity.
Defined.

(** "lancedb" is cached at time 1 and then reset: its instance and flag
    are gone, its timestamp entry is still there. *)
Lemma resetBackendHealth_keeps_timestamps_witness :
  let s := after (initializeBackend BACKENDS (JsStr "lancedb") None true
                    (healthy_at 1) initial) in
  let s' := resetBackendHealth (JsStr "lancedb") s in
  truthy (JsStr "lancedb") = true
  ∧ backendAccessTimestamps s' = [("lancedb", 1)]
  ∧ backendInstances s' !! "lancedb" = None
  ∧ backendHealthStatus s' !! "lancedb" = None.
Proof.
  intros s s'. split; [reflexivity|].
  pose proof (resetBackendHealth_keeps_timestamps (JsStr "lancedb") s)
    as (Hts & Hone & _).
  destruct (Hone eq_refl) as (Hi & Hh & _).
  split; [exact Hts|]. split; [exact Hi | exact Hh].
Defined.

(** * Properties of BM25 on the test corpus *)

Module BM25Facts.

Import BM25.
Local Open Scope R_scope.

Example tokenize_wizardDocument :
  tokenize (text wizardDocument)
  = ["the"; "wizard"; "cast"; "a"; "powerful"; "fire"; "spell"; "at";
     "the"; "dragon"]%string.
Proof. reflexivity. Qed.

Example tokenize_query1 : tokenize query1 = ["wizard"; "magic"; "spell"]%string.
Proof. reflexivity. Qed.


(** ** The reference query *)

Ltac numerals :=
  rewrite ?INR_IZR_INZ;
  cbv [Q2R QArith_base.Qnum QArith_base.Qden Z.of_nat Pos.of_succ_nat Pos.succ].

Ltac count_terms :=
  repeat match goal with
  | |- context [termFrequency ?t ?l] =>
      let v := eval vm_compute in (termFrequency t l) in
      change (termFrequency t l) with v
  | |- context [documentLength ?d] =>
      let v := eval vm_compute in (documentLength d) in
      change (documentLength d) with v
  end.

(** A term that does not occur in a document adds nothing to its score. *)
Lemma saturation_absent k1 b len avgdl : saturation k1 b 0 len avgdl = 0.
Proof. unfold saturation. simpl INR. unfold Rdiv. by rewrite !Rmult_0_l. Qed.

Lemma idf_positive (N df : nat) : (df <= N)%nat -> 0 < idf N df.
Proof.
  intros Hle. unfold idf. rewrite <- ln_1.
  apply ln_increasing; [lra|].
  pose proof (pos_INR df) as Hdf. apply le_INR in Hle.
  assert (0 < (INR N - INR df + 0.5) / (INR df + 0.5))
    by (apply Rdiv_lt_0_compat; lra).
  lra.
Qed.

(** A document that has none of the query's terms scores exactly 0,
    whatever the corpus and the parameters. *)
Lemma score_no_common_term k1 b corpus query d :
  (∀ term, term ∈ tokenize query →
     termFrequency term (tokenize (text d)) = 0%nat) →
  score k1 b corpus query d = 0.
Proof.
  unfold score. induction (tokenize query) as [|term terms IH]; intros Hnone;
    simpl; [done|].
  rewrite IH by (intros t Ht; apply Hnone; by right).
  unfold termScore. rewrite (Hnone term) by by left.
  rewrite saturation_absent. lra.
Qed.

(** The rarer term weighs more: "wizard" is in one document, "magic" and
    "spell" are in two. *)
Lemma idf_testDocuments_order : idf 5 2 < idf 5 1.
Proof. unfold idf. numerals. apply ln_increasing; lra. Qed.

Lemma averageLength_testDocuments : averageLength testDocuments = 37 / 5.
Proof.
  unfold averageLength.
  change (list_sum (List.map documentLength testDocuments)) with 37%nat.
  change (length testDocuments) with 5%nat.
  by numerals.
Qed.

(** One occurrence in a document of 10, 6 or 7 terms. *)
Lemma saturation_once_in_10 : saturation 1.5 0.75 1 10 (37 / 5) = 740 / 857.
Proof. unfold saturation. numerals. field. Qed.

Lemma saturation_once_in_6 : saturation 1.5 0.75 1 6 (37 / 5) = 740 / 677.
Proof. unfold saturation. numerals. field. Qed.

Lemma saturation_once_in_7 : saturation 1.5 0.75 1 7 (37 / 5) = 370 / 361.
Proof. unfold saturation. numerals. field. Qed.

Lemma score_testDocuments (d : Document) :
  score 1.5 0.75 testDocuments query1 d
  = idf 5 1 * saturation 1.5 0.75
                (termFrequency "wizard" (tokenize (text d)))
                (documentLength d) (37 / 5)
    + (idf 5 2 * saturation 1.5 0.75
                   (termFrequency "magic" (tokenize (text d)))
                   (documentLength d) (37 / 5)
       + (idf 5 2 * saturation 1.5 0.75
                      (termFrequency "spell" (tokenize (text d)))
                      (documentLength d) (37 / 5)
          + 0)).
Proof.
  unfold score. rewrite tokenize_query1. cbn [List.map fold_right].
  unfold termScore. rewrite averageLength_testDocuments.
  change (length testDocuments) with 5%nat.
  change (documentFrequency "wizard" testDocuments) with 1%nat.
  change (documentFrequency "magic" testDocuments) with 2%nat.
  change (documentFrequency "spell" testDocuments) with 2%nat.
  reflexivity.
Qed.

Lemma score_wizardDocument :
  score 1.5 0.75 testDocuments query1 wizardDocument
  = (idf 5 1 + idf 5 2) * (740 / 857).
Proof.
  rewrite score_testDocuments. unfold wizardDocument. count_terms.
  rewrite saturation_absent, saturation_once_in_10. lra.
Qed.

(** C8: on [testDocuments], with [k1 = 1.5] and [b = 0.75] and the query
    "wizard magic spell", the document "The wizard cast a powerful fire
    spell at the dragon" (position 0) contains "wizard" and "spell" once
    each, and every document of the corpus that contains neither "wizard"
    nor "spell" has a strictly lower score and is ranked below it. *)
Theorem wizard_spell_document_scores_higher (j : nat) (d : Document) :
  testDocuments !! j = Some d →
  termFrequency "wizard" (tokenize (text d)) = 0%nat →
  termFrequency "spell" (tokenize (text d)) = 0%nat →
  testDocuments !! 0%nat = Some wizardDocument
  ∧ termFrequency "wizard" (tokenize (text wizardDocument)) = 1%nat
  ∧ termFrequency "spell" (tokenize (text wizardDocument)) = 1%nat
  ∧ score 1.5 0.75 testDocuments query1 d
    < score 1.5 0.75 testDocuments query1 wizardDocument
  ∧ ranks_above 1.5 0.75 testDocuments query1 0 j.
Proof.
  intros Hj Hwizard Hspell.
  split; [reflexivity|]. split; [reflexivity|]. split; [reflexivity|].
  assert (Hlt : score 1.5 0.75 testDocuments query1 d
                < score 1.5 0.75 testDocuments query1 wizardDocument).
  { rewrite score_wizardDocument, score_testDocuments.
    rewrite Hwizard, Hspell, !saturation_absent.
    pose proof idf_testDocuments_order as Horder.
    pose proof (idf_positive 5 2 ltac:(lia)) as Hpos.
    destruct j as [|[|[|[|[|j]]]]]; simpl in Hj; try discriminate Hj;
      injection Hj as <-.
    - discriminate Hwizard.
    - count_terms. rewrite saturation_once_in_6. lra.
    - count_terms. rewrite saturation_absent. lra.
    - count_terms. rewrite saturation_once_in_7. lra.
    - discriminate Hspell. }
  split; [exact Hlt|].
  unfold ranks_above. rewrite Hj.
  change (testDocuments !! 0%nat) with (Some wizardDocument).
  by left.
Qed.

(** "The dragon breathed fire across the battlefield" (position 2) has
    none of the query's terms. *)
Lemma wizard_spell_document_scores_higher_witness :
  let d := mkDocument "The dragon breathed fire across the battlefield" 3 in
  testDocuments !! 2%nat = Some d
  ∧ termFrequency "wizard" (tokenize (text d)) = 0%nat
  ∧ termFrequency "spell" (tokenize (text d)) = 0%nat
  ∧ score 1.5 0.75 testDocuments query1 d
    < score 1.5 0.75 testDocuments query1 wizardDocument
  ∧ ranks_above 1.5 0.75 testDocuments query1 0 2.
Proof.
  intros d. split; [reflexivity|]. split; [reflexivity|]. split; [reflexivity|].
  apply (wizard_spell_document_scores_higher 2 d); reflexivity.
Defined.

End BM25Facts.


(** * Further properties of the backend manager *)

(** ** The shape of a step *)

(** What [initializeBackend] leaves behind: a touched timestamp (hit),
    the state after the eviction step with at most the health flag of the
    name and the allocation counter changed (unknown name or failure), or
    a newly cached instance. *)
Lemma initializeBackend_after (registry : gmap string BackendClass)
    backendName settings throwOnFail w s :
  let n := normalizeBackendName backendName in
  let s' := after (initializeBackend registry backendName settings throwOnFail w s) in
  let s1 := evictLRUBackendIfNeeded s in
  (is_Some (healthy_instance n s) ∧ s' = touch n (now w) s)
  ∨ (healthy_instance n s = None
     ∧ backendInstances s' = backendInstances s1
     ∧ backendAccessTimestamps s' = backendAccessTimestamps s1
     ∧ (allocated s1 ≤ allocated s')%nat
     ∧ (backendHealthStatus s' = backendHealthStatus s1
        ∨ (is_Some (registry !! n)
           ∧ backendHealthStatus s' = <[n := false]> (backendHealthStatus s1))))
  ∨ (healthy_instance n s = None
     ∧ ∃ cls, registry !! n = Some cls
       ∧ s' = touch n (now w)
                (set_health n true
                   (set_instance n (mkBackend cls (allocated s1)) (allocate s1)))).
Proof.
  intros n s' s1. subst s'. unfold initializeBackend. fold n.
  destruct (healthy_instance n s) as [b|] eqn:Hh; simpl.
  { left. split; [by eexists | done]. }
  fold s1. right.
  destruct (registry !! n) as [cls|] eqn:Hcls.
  2:{ left. destruct throwOnFail; simpl; repeat split; try done; by left. }
  unfold try_initialize.
  destruct (attempt w) as [[]|[]|[]|[]]; destruct throwOnFail; simpl.
  all: try (right; split; [done|]; exists cls; by split).
  all: left; split; [done|]; split; [done|]; split; [done|]; split; [lia|].
  all: right; split; [by eexists|]; by rewrite ?insert_insert_eq.
Qed.

Lemma perform_cases (registry : gmap string BackendClass) s c :
  perform registry s c = s
  ∨ (∃ backendName, perform registry s c = resetBackendHealth backendName s)
  ∨ (∃ backendName settings throwOnFail w,
       perform registry s c
       = after (initializeBackend registry backendName settings throwOnFail w s)).
Proof.
  destruct c as [[] w]; unfold perform; simpl.
  - right; right. by do 4 eexists.
  - right; right. by do 4 eexists.
  - unfold getBackendForCollection.
    destruct (truthy _); [right; right; by do 4 eexists | by left].
  - unfold isBackendAvailable.
    destruct (backendHealthStatus s !! normalizeBackendName backendName) as [[]|];
      destruct (healthy_instance (normalizeBackendName backendName) s);
      try (by left).
    all: right; right; exists backendName, settings, false, w;
      by destruct (completion _).
  - right; left. by eexists.
Qed.

(** Induction over the states reachable from the empty cache. *)
Lemma reachable_ind (registry : gmap string BackendClass) (P : State → Prop) :
  P initial →
  (∀ s backendName,
     wellformed registry s → P s → P (resetBackendHealth backendName s)) →
  (∀ s backendName settings throwOnFail w,
     wellformed registry s → P s →
     P (after (initializeBackend registry backendName settings throwOnFail w s))) →
  ∀ calls, P (perform_all registry calls initial).
Proof.
  intros Hinit Hreset Hstep calls.
  assert (Hgen : ∀ s, wellformed registry s → P s →
                      P (perform_all registry calls s)).
  { induction calls as [|c l IH]; intros s Hwf Hs; simpl; [done|].
    apply IH; [by apply perform_wellformed|].
    destruct (perform_cases registry s c)
      as [->|[[name ->]|(name & settings & t & w & ->)]]; auto. }
  apply Hgen; [apply initial_wellformed | done].
Qed.

(** ** [getBackend] and [getBackendForCollection] *)

Lemma initializeBackend_strict (registry : gmap string BackendClass)
    backendName settings w s :
  completion (initializeBackend registry backendName settings true w s)
  ≠ Normal None.
Proof.
  unfold initializeBackend, try_initialize.
  destruct (healthy_instance _ s) as [b|]; simpl; [done|].
  destruct (registry !! _) as [cls|]; [|done].
  by destruct (attempt w) as [[]|[]|[]|[]].
Qed.

(** X1: [getBackend] and [getBackendForCollection] never resolve to
    [null]: over any registry and from any state they either return a
    backend instance or throw. *)
Theorem getBackend_returns_instance_or_throws
    (registry : gmap string BackendClass) settings name w s :
  ((∃ backend, completion (getBackend registry settings name w s)
               = Normal (Some backend))
   ∨ (∃ error, completion (getBackend registry settings name w s)
               = Abrupt error))
  ∧ ((∃ backend, completion (getBackendForCollection registry name settings w s)
                 = Normal (Some backend))
     ∨ (∃ error, completion (getBackendForCollection registry name settings w s)
                 = Abrupt error)).
Proof.
  assert (Hget : ∀ preferred,
    (∃ backend, completion (getBackend registry settings preferred w s)
                = Normal (Some backend))
    ∨ (∃ error, completion (getBackend registry settings preferred w s)
                = Abrupt error)).
  { intros preferred. unfold getBackend.
    pose proof (initializeBackend_strict registry
      (js_or preferred
         (js_or (from_option vector_backend JsUndefined settings)
            (js_or (global_vector_backend w) (JsStr "standard"))))
      settings w s) as Hstrict.
    destruct (completion _) as [[b|]|e]; [left | done | right]; by eexists. }
  split; [apply Hget|].
  unfold getBackendForCollection.
  destruct (truthy name); [apply Hget | right; by eexists].
Qed.

(** ** The shipped registry: no eviction, unknown names *)

Lemma shipped_registry_below_cap (calls : list (Call * Env)) :
  (size (backendInstances (perform_all BACKENDS calls initial))
   < MAX_CACHED_BACKENDS)%nat.
Proof.
  pose proof (wellformed_size BACKENDS _
    (perform_all_wellformed BACKENDS calls initial (initial_wellformed BACKENDS)))
    as Hsize.
  assert (size BACKENDS = 4%nat) as Hfour by reflexivity.
  unfold MAX_CACHED_BACKENDS. lia.
Qed.

(** Below the cap the eviction function is the identity. *)
Lemma evict_below_cap (s : State) :
  (size (backendInstances s) < MAX_CACHED_BACKENDS)%nat →
  evictLRUBackendIfNeeded s = s.
Proof.
  intros Hlt. unfold evictLRUBackendIfNeeded.
  by rewrite (proj2 (Nat.leb_gt _ _) Hlt).
Qed.

(** X2: with the registry as shipped, [evictLRUBackendIfNeeded] never
    removes anything: in every state reachable from the empty cache it
    returns the tables unchanged. *)
Theorem shipped_registry_never_evicts (calls : list (Call * Env)) :
  let s := perform_all BACKENDS calls initial in
  evictLRUBackendIfNeeded s = s.
Proof.
  intros s. apply evict_below_cap, shipped_registry_below_cap.
Qed.


(** Only registered names ever get a health flag. *)
Lemma flags_registered (registry : gmap string BackendClass) calls k :
  is_Some (backendHealthStatus (perform_all registry calls initial) !! k) →
  is_Some (registry !! k).
Proof.
  revert k. apply (reachable_ind registry
    (λ s, ∀ k, is_Some (backendHealthStatus s !! k) → is_Some (registry !! k))).
  - intros k. simpl. rewrite lookup_empty. by intros [? ?].
  - intros s name _ IH k. unfold resetBackendHealth.
    destruct (truthy name); simpl.
    + destruct (decide (k = normalizeBackendName name)) as [->|Hne].
      * rewrite lookup_delete_eq. by intros [? ?].
      * rewrite lookup_delete_ne by done. apply IH.
    + rewrite reset_all_health. case_decide; [by intros [? ?] | apply IH].
  - intros s name settings t w _ IH k.
    assert (Hevict : ∀ j, is_Some (backendHealthStatus (evictLRUBackendIfNeeded s) !! j)
                          → is_Some (registry !! j)).
    { intros j. destruct (evict_cases s) as [->|[o ->]]; [apply IH|]. simpl.
      destruct (decide (j = o)) as [->|Hne].
      - rewrite lookup_delete_eq. by intros [? ?].
      - rewrite lookup_delete_ne by done. apply IH. }
    destruct (initializeBackend_after registry name settings t w s)
      as [[_ ->]|[(_ & _ & _ & _ & [->|[Hreg ->]])|(_ & cls & Hcls & ->)]];
      [apply IH | apply Hevict | |]; simpl.
    all: destruct (decide (k = normalizeBackendName name)) as [->|Hne];
      [by rewrite ?Hcls | rewrite lookup_insert_ne by done; apply Hevict].
Qed.

(** X3: with the registry as shipped, a request for a name that is not
    registered (after alias resolution) changes nothing: in every
    reachable state [initializeBackend] leaves all tables as they were and
    calls no backend, and [isBackendAvailable] answers [false] likewise. *)
Theorem unknown_backend_leaves_cache_untouched
    (calls : list (Call * Env)) backendName settings throwOnFail w :
  BACKENDS !! normalizeBackendName backendName = None →
  let s := perform_all BACKENDS calls initial in
  let r := initializeBackend BACKENDS backendName settings throwOnFail w s in
  after r = s
  ∧ effects r = []
  ∧ isBackendAvailable BACKENDS backendName settings w s
    = mkRun (Normal false) s [].
Proof.
  intros Hunknown s r.
  assert (Hwf : wellformed BACKENDS s)
    by apply perform_all_wellformed, initial_wellformed.
  assert (Hmiss : healthy_instance (normalizeBackendName backendName) s = None).
  { unfold healthy_instance.
    destruct (backendInstances s !! normalizeBackendName backendName)
      as [b|] eqn:Hb; [|done].
    destruct (cached_registered _ _ Hwf (normalizeBackendName backendName))
      as [[cls Hcls] _]; [by eexists | congruence]. }
  assert (Hflag : backendHealthStatus s !! normalizeBackendName backendName = None).
  { apply eq_None_not_Some. intros Hsome.
    destruct (flags_registered BACKENDS calls _ Hsome) as [cls Hcls]. congruence. }
  assert (Hrun : ∀ t, initializeBackend BACKENDS backendName settings t w s
                 = mkRun (if t then Abrupt (UnknownBackend backendName
                                              (normalizeBackendName backendName))
                          else Normal None) s []).
  { intros t. unfold initializeBackend.
    assert (Hev : evictLRUBackendIfNeeded s = s)
      by apply evict_below_cap, shipped_registry_below_cap.
    rewrite Hmiss, Hunknown, Hev. by destruct t. }
  subst r. rewrite Hrun. split; [done|]. split; [done|].
  unfold isBackendAvailable. by rewrite Hflag, Hmiss, Hrun.
Qed.

(** ** Invariants of the three tables *)


Lemma Obj_get_set_is_Some (k n : string) (t : Z) (o : list (string * Z)) :
  is_Some (Obj.get k o) → is_Some (Obj.get k (Obj.set n t o)).
Proof.
  destruct (decide (n = k)) as [->|Hne].
  - rewrite Obj_get_set_eq. by eexists.
  - by rewrite Obj_get_set_ne.
Qed.

Lemma evict_stamped s : stamped s → stamped (evictLRUBackendIfNeeded s).
Proof.
  intros Hs. destruct (evict_cases s) as [->|[o ->]]; [done|].
  intros k. simpl. destruct (decide (k = o)) as [->|Hne].
  - rewrite lookup_delete_eq. by intros [? ?].
  - rewrite lookup_delete_ne, Obj_get_remove_ne by done. apply Hs.
Qed.

(** X5: over any registry, in every state reachable from the empty cache
    (resets included), every cached instance has an entry in the
    last-access timestamp table. *)
Theorem cached_instances_have_timestamps
    (registry : gmap string BackendClass) (calls : list (Call * Env)) :
  stamped (perform_all registry calls initial).
Proof.
  apply (reachable_ind registry stamped).
  - intros k. simpl. rewrite lookup_empty. by intros [? ?].
  - intros s name _ IH k. unfold resetBackendHealth.
    destruct (truthy name); simpl.
    + destruct (decide (k = normalizeBackendName name)) as [->|Hne].
      * rewrite lookup_delete_eq. by intros [? ?].
      * rewrite lookup_delete_ne by done. apply IH.
    + rewrite reset_all_instances, reset_all_timestamps.
      case_decide; [by intros [? ?] | apply IH].
  - intros s name settings t w _ IH k.
    pose proof (evict_stamped s IH) as He.
    destruct (initializeBackend_after registry name settings t w s)
      as [[_ ->]|[(_ & -> & -> & _)|(_ & cls & _ & ->)]]; simpl.
    + intros Hk. by apply Obj_get_set_is_Some, IH.
    + apply He.
    + destruct (decide (k = normalizeBackendName name)) as [->|Hne].
      * intros _. rewrite Obj_get_set_eq. by eexists.
      * rewrite lookup_insert_ne by done. intros Hk.
        by apply Obj_get_set_is_Some, He.
Qed.

(** ** Failure, reset and retry *)


(** X7: [isBackendAvailable] and [initializeBackend] agree on success:
    from any state and over any registry, once [isBackendAvailable] has
    answered [true] for a name, the next [initializeBackend] for that name
    returns an instance straight from the cache, without calling the
    backend. *)
Theorem available_backend_is_served_from_cache
    (registry : gmap string BackendClass)
    backendName settings settings' throwOnFail w w' s :
  let p := isBackendAvailable registry backendName settings w s in
  let r := initializeBackend registry backendName settings' throwOnFail w' (after p) in
  completion p = Normal true →
  (∃ backend, completion r = Normal (Some backend)) ∧ effects r = [].
Proof.
  intros p r Htrue.
  assert (Hhit : ∃ backend,
            healthy_instance (normalizeBackendName backendName) (after p)
            = Some backend).
  { subst p. unfold isBackendAvailable in *.
    destruct (backendHealthStatus s !! normalizeBackendName backendName)
      as [[]|] eqn:Hflag;
      destruct (healthy_instance (normalizeBackendName backendName) s)
        as [b|] eqn:Hh; simpl in *; try done; try (by eexists).
    all: destruct (completion (initializeBackend registry backendName settings
                                 false w s)) as [[b|]|e] eqn:Hc;
      simpl in *; try done.
    all: exists b; by apply initializeBackend_caches. }
  destruct Hhit as [backend Hhit]. subst r.
  rewrite (initializeBackend_hit _ _ _ _ _ _ _ Hhit). simpl.
  split; [by eexists | done].
Qed.

(** X8: resetting all names (a call without name, or with [null],
    [undefined] or the empty string) in a reachable state empties both the
    instance table and the health table, over any registry; the timestamp
    table stays as it was. *)
Theorem reset_all_empties_cache
    (registry : gmap string BackendClass) (calls : list (Call * Env)) backendName :
  truthy backendName = false →
  let s := perform_all registry calls initial in
  let s' := resetBackendHealth backendName s in
  backendInstances s' = ∅
  ∧ backendHealthStatus s' = ∅
  ∧ backendAccessTimestamps s' = backendAccessTimestamps s.
Proof.
  intros Hfalsy s s'. subst s'. unfold resetBackendHealth. rewrite Hfalsy.
  assert (Hwf : wellformed registry s)
    by apply perform_all_wellformed, initial_wellformed.
  split; [|split; [|apply reset_all_timestamps]].
  - apply map_eq. intros k. rewrite reset_all_instances, lookup_empty.
    case_decide as Hk; [done|].
    apply eq_None_not_Some. intros Hsome. apply Hk, elem_of_keys.
    apply (cached_iff_healthy _ _ Hwf) in Hsome. rewrite Hsome. by eexists.
  - apply map_eq. intros k. rewrite reset_all_health, lookup_empty.
    case_decide as Hk; [done|].
    apply eq_None_not_Some. intros Hsome. by apply Hk, elem_of_keys.
Qed.

Lemma reset_all_clears_flags (s : State) :
  backendHealthStatus
    (foldl reset_one s (map_to_list (backendHealthStatus s)).*1) = ∅.
Proof.
  apply map_eq. intros k. rewrite reset_all_health, lookup_empty.
  case_decide as Hk; [done|].
  apply eq_None_not_Some. intros Hsome. by apply Hk, elem_of_keys.
Qed.

(** X9: [resetBackendHealth] is idempotent on every state: resetting the
    same name (or all names) a second time changes nothing more. *)
Theorem resetBackendHealth_idempotent backendName (s : State) :
  resetBackendHealth backendName (resetBackendHealth backendName s)
  = resetBackendHealth backendName s.
Proof.
  unfold resetBackendHealth. destruct (truthy backendName).
  - unfold reset_one. simpl. by rewrite !delete_delete_eq.
  - by rewrite reset_all_clears_flags, map_to_list_empty.
Qed.

(** ** Object identity *)

Lemma initial_identified : identified initial.
Proof. split; simpl; intros *; by rewrite lookup_empty. Qed.

Lemma shrink_identified (s s' : State) :
  (∀ k b, backendInstances s' !! k = Some b → backendInstances s !! k = Some b) →
  (allocated s ≤ allocated s')%nat →
  identified s → identified s'.
Proof.
  intros Hsub Hle [Hlt Hinj]. split.
  - intros k b Hk. apply Hsub, Hlt in Hk. lia.
  - intros k1 k2 b1 b2 H1 H2. apply Hinj; by apply Hsub.
Qed.

Lemma evict_identified s : identified s → identified (evictLRUBackendIfNeeded s).
Proof.
  intros Hs. destruct (evict_cases s) as [->|[o ->]]; [done|].
  apply (shrink_identified s); [|done|done].
  intros k b. simpl. by intros [_ ?]%lookup_delete_Some.
Qed.

Lemma reset_identified backendName s :
  identified s → identified (resetBackendHealth backendName s).
Proof.
  intros Hs. apply (shrink_identified s); [| |done]; unfold resetBackendHealth.
  - intros k b. destruct (truthy backendName); simpl.
    + by intros [_ ?]%lookup_delete_Some.
    + rewrite reset_all_instances. by case_decide.
  - destruct (truthy backendName); [done | by rewrite reset_all_allocated].
Qed.

Lemma perform_all_identified (registry : gmap string BackendClass) calls :
  identified (perform_all registry calls initial).
Proof.
  apply (reachable_ind registry identified).
  - apply initial_identified.
  - intros s name _ IH. by apply reset_identified.
  - intros s name settings t w _ IH.
    pose proof (evict_identified s IH) as He.
    destruct (initializeBackend_after registry name settings t w s)
      as [[_ ->]|[(_ & Hi & _ & Hle & _)|(_ & cls & _ & ->)]].
    + destruct IH. by split.
    + apply (shrink_identified (evictLRUBackendIfNeeded s)); [|done|done].
      intros k b. by rewrite Hi.
    + destruct He as [Hlt Hinj]. split; simpl.
      * intros k b. destruct (decide (k = normalizeBackendName name)) as [->|Hne].
        -- rewrite lookup_insert_eq. intros [= <-]. simpl. lia.
        -- rewrite lookup_insert_ne by done. intros Hk%Hlt. lia.
      * intros k1 k2 b1 b2.
        destruct (decide (k1 = normalizeBackendName name)) as [->|Hne1];
          destruct (decide (k2 = normalizeBackendName name)) as [->|Hne2];
          rewrite ?lookup_insert_eq, ?lookup_insert_ne by done; try done.
        -- intros [= <-] Hk%Hlt. simpl. lia.
        -- intros Hk%Hlt [= <-]. simpl. lia.
        -- apply Hinj.
Qed.

(** X10: over any registry, in every reachable state, no backend object
    is cached under two names: the instances cached under two different
    names are two different objects. *)
Theorem cached_instances_are_distinct_objects
    (registry : gmap string BackendClass) (calls : list (Call * Env))
    (k1 k2 : string) (b1 b2 : Backend) :
  let s := perform_all registry calls initial in
  k1 ≠ k2 →
  backendInstances s !! k1 = Some b1 →
  backendInstances s !! k2 = Some b2 →
  objectId b1 ≠ objectId b2 ∧ b1 ≠ b2.
Proof.
  intros s Hne H1 H2.
  assert (Hids : objectId b1 ≠ objectId b2).
  { intros Heq. apply Hne.
    by apply (ids_distinct _ (perform_all_identified registry calls) k1 k2 b1 b2). }
  split; [done|]. by intros ->.
Qed.

(** X11: a reset permits a fresh attempt.  Over any registry and in every
    reachable state, after [resetBackendHealth(name)] the next
    [initializeBackend] for that (registered) name constructs, initializes
    and probes a new backend; when the probe succeeds the instance returned
    and cached is a new object, different from every instance that was
    cached before the reset. *)
Theorem reset_then_initialize_constructs_anew
    (registry : gmap string BackendClass) (calls : list (Call * Env))
    backendName settings throwOnFail w cls :
  let n := normalizeBackendName backendName in
  let s := perform_all registry calls initial in
  let r := initializeBackend registry backendName settings throwOnFail w
             (resetBackendHealth backendName s) in
  truthy backendName = true →
  registry !! n = Some cls →
  attempt w = HealthCheckReturns true →
  effects r = [EvNew cls; EvInitialize cls settings; EvHealthCheck cls]
  ∧ ∃ backend,
      completion r = Normal (Some backend)
      ∧ backendInstances (after r) !! n = Some backend
      ∧ ∀ k old, backendInstances s !! k = Some old → old ≠ backend.
Proof.
  intros n s r Htruthy Hreg Hok. subst r.
  unfold resetBackendHealth. rewrite Htruthy. fold n.
  assert (Hmiss : healthy_instance n (reset_one s n) = None).
  { unfold healthy_instance. simpl. by rewrite lookup_delete_eq. }
  unfold initializeBackend, try_initialize. fold n.
  rewrite Hmiss, Hreg, Hok. simpl. split; [done|].
  eexists. split; [done|]. split; [by rewrite lookup_insert_eq|].
  intros k old Hold ->.
  pose proof (ids_allocated _ (perform_all_identified registry calls) _ _ Hold)
    as Hlt. fold s in Hlt. simpl in Hlt.
  assert (Hsame : allocated (evictLRUBackendIfNeeded (reset_one s n)) = allocated s).
  { by destruct (evict_cases (reset_one s n)) as [->|[o ->]]. }
  rewrite Hsame in Hlt. lia.
Qed.

(** ** The eviction step *)

Lemma oldest_scan_first_acc (entries : list (string * Z)) (n0 : string) (t0 : Z) :
  (oldest_scan entries (Some n0) (Some t0) = Some n0
   ∧ ∀ e, e ∈ entries → t0 ≤ e.2)
  ∨ ∃ pre name t post,
      entries = (pre ++ (name, t) :: post)%list
      ∧ oldest_scan entries (Some n0) (Some t0) = Some name
      ∧ t < t0
      ∧ (∀ e, e ∈ pre → t < e.2)
      ∧ (∀ e, e ∈ post → t ≤ e.2).
Proof.
  revert n0 t0. induction entries as [|[n ts] rest IH]; intros n0 t0; simpl.
  { left. split; [done|]. by intros e ?%elem_of_nil. }
  destruct (ts <? t0) eqn:Hlt.
  - apply Z.ltb_lt in Hlt. right.
    destruct (IH n ts) as [[Hscan Hall]|(pre & name & t & post & -> & Hscan & Ht & Hpre & Hpost)].
    + exists [], n, ts, rest. repeat split; try done.
      by intros e ?%elem_of_nil.
    + exists ((n, ts) :: pre), name, t, post. repeat split; try done; [lia|].
      intros e [->|He]%elem_of_cons; [done | by apply Hpre].
  - apply Z.ltb_ge in Hlt.
    destruct (IH n0 t0) as [[Hscan Hall]|(pre & name & t & post & -> & Hscan & Ht & Hpre & Hpost)].
    + left. split; [done|].
      intros e [->|He]%elem_of_cons; [done | by apply Hall].
    + right. exists ((n, ts) :: pre), name, t, post. repeat split; try done.
      intros e [->|He]%elem_of_cons; [simpl; lia | by apply Hpre].
Qed.

Lemma oldest_scan_first (entries : list (string * Z)) :
  entries ≠ [] →
  ∃ pre name t post,
    entries = (pre ++ (name, t) :: post)%list
    ∧ oldest_scan entries None None = Some name
    ∧ (∀ e, e ∈ pre → t < e.2)
    ∧ (∀ e, e ∈ post → t ≤ e.2).
Proof.
  destruct entries as [|[n ts] rest]; [done|]. intros _. simpl.
  destruct (oldest_scan_first_acc rest n ts)
    as [[Hscan Hall]|(pre & name & t & post & -> & Hscan & Ht & Hpre & Hpost)].
  - exists [], n, ts, rest. repeat split; try done. by intros e ?%elem_of_nil.
  - exists ((n, ts) :: pre), name, t, post. repeat split; try done.
    intros e [->|He]%elem_of_cons; [done | by apply Hpre].
Qed.

(** X12: when the cache is full, [evictLRUBackendIfNeeded] forgets the
    name of the first entry of the timestamp table whose timestamp is
    minimal: every entry before it is strictly newer and no entry after it
    is older (among equal timestamps the first one listed goes).  It
    removes that name from all three tables, whether or not the name holds
    an instance. *)
Theorem eviction_victim_is_first_oldest (s : State) :
  (MAX_CACHED_BACKENDS ≤ size (backendInstances s))%nat →
  backendAccessTimestamps s ≠ [] →
  ∃ pre name t post,
    backendAccessTimestamps s = (pre ++ (name, t) :: post)%list
    ∧ (∀ e, e ∈ pre → t < e.2)
    ∧ (∀ e, e ∈ post → t ≤ e.2)
    ∧ evictLRUBackendIfNeeded s
      = if truthy_string name then forget name s else s.
Proof.
  intros Hfull Hne.
  destruct (oldest_scan_first _ Hne) as (pre & name & t & post & Hts & Hscan & Hpre & Hpost).
  exists pre, name, t, post. repeat split; try done.
  unfold evictLRUBackendIfNeeded.
  by rewrite (proj2 (Nat.leb_le _ _) Hfull), Hscan.
Qed.

(** X13: over any registry, a sequence of calls that never resets keeps
    the cache within [MAX_CACHED_BACKENDS] and keeps the timestamp table
    and the instance table on the same names. *)
Theorem cache_bounded_without_reset
    (registry : gmap string BackendClass) (calls : list (Call * Env)) :
  Forall (fun c => is_reset c.1 = false) calls →
  let s := perform_all registry calls initial in
  (size (backendInstances s) ≤ MAX_CACHED_BACKENDS)%nat
  ∧ ∀ k, is_Some (Obj.get k (backendAccessTimestamps s))
         ↔ is_Some (backendInstances s !! k).
Proof.
  intros Hcalls s.
  destruct (perform_all_in_step registry calls initial Hcalls
              (initial_wellformed registry) initial_in_step) as [Hiff Hcap].
  by split.
Qed.

(** X14: over any registry, when a sequence of calls without reset has
    filled the cache, [evictLRUBackendIfNeeded] removes exactly one cached
    instance, that of a name whose last-access timestamp is the smallest
    of the table, together with its health flag and its timestamp. *)
Theorem eviction_removes_least_recently_used
    (registry : gmap string BackendClass) (calls : list (Call * Env)) :
  Forall (fun c => is_reset c.1 = false) calls →
  let s := perform_all registry calls initial in
  (MAX_CACHED_BACKENDS ≤ size (backendInstances s))%nat →
  ∃ name t,
    is_Some (backendInstances s !! name)
    ∧ (name, t) ∈ backendAccessTimestamps s
    ∧ (∀ e, e ∈ backendAccessTimestamps s → t ≤ e.2)
    ∧ evictLRUBackendIfNeeded s = forget name s
    ∧ size (backendInstances (evictLRUBackendIfNeeded s))
      = pred (size (backendInstances s)).
Proof.
  intros Hcalls s Hfull.
  assert (Hwf : wellformed registry s)
    by apply perform_all_wellformed, initial_wellformed.
  destruct (perform_all_in_step registry calls initial Hcalls
              (initial_wellformed registry) initial_in_step) as [Hiff Hcap].
  fold s in Hiff, Hcap.
  assert (Hne : backendAccessTimestamps s ≠ []).
  { destruct (map_size_ne_0_lookup_1 (backendInstances s)) as [k Hk].
    - unfold MAX_CACHED_BACKENDS in Hfull. lia.
    - apply Hiff in Hk as [t Ht]. by intros Heq; rewrite Heq in Ht. }
  destruct (oldest_scan_nonempty _ Hne) as [name Hscan].
  destruct (oldest_scan_minimal _ _ Hscan) as (t & Hin & Hmin).
  assert (Hcached : is_Some (backendInstances s !! name))
    by (apply Hiff; by eapply Obj_get_elem).
  destruct (cached_registered _ _ Hwf _ Hcached) as [_ Hnorm].
  pose proof (normalize_truthy (JsStr name)) as Htruthy.
  rewrite Hnorm in Htruthy.
  assert (Hev : evictLRUBackendIfNeeded s = forget name s).
  { unfold evictLRUBackendIfNeeded.
    by rewrite (proj2 (Nat.leb_le _ _) Hfull), Hscan, Htruthy. }
  exists name, t. repeat split; try done.
  rewrite Hev. simpl. by apply map_size_delete_Some.
Qed.

(** ** The list of available backends *)

Lemma getAvailableBackends_registered (k : string) :
  k ∈ getAvailableBackends ↔ is_Some (BACKENDS !! k).
Proof.
  unfold getAvailableBackends, BACKENDS. split.
  - intros Hk. set_unfold in Hk.
    destruct Hk as [->|[->|[->|[->|[]]]]]; by eexists.
  - intros [cls H].
    repeat (apply lookup_insert_Some in H as [[<- _]|[_ H]]; [set_solver|]).
    apply lookup_singleton_Some in H as [<- _]. set_solver.
Qed.

(** X15: with the registry as shipped and in every reachable state,
    [initializeBackend] with [throwOnFail = true] throws "Unknown backend"
    exactly for the names whose normalized form is not listed by
    [getAvailableBackends()].  (So the alias "vectra" and the falsy names
    are accepted although the list does not show them.) *)
Theorem unknown_backend_iff_not_listed
    (calls : list (Call * Env)) backendName settings w :
  let n := normalizeBackendName backendName in
  let s := perform_all BACKENDS calls initial in
  completion (initializeBackend BACKENDS backendName settings true w s)
  = Abrupt (UnknownBackend backendName n)
  ↔ n ∉ getAvailableBackends.
Proof.
  intros n s. rewrite getAvailableBackends_registered.
  assert (Hwf : wellformed BACKENDS s)
    by apply perform_all_wellformed, initial_wellformed.
  unfold initializeBackend, try_initialize. fold n.
  destruct (BACKENDS !! n) as [cls|] eqn:Hreg.
  - split; [|by intros []; eexists].
    destruct (healthy_instance n s); [done|].
    by destruct (attempt w) as [[]|[]|[]|[]].
  - split; [by intros _ [? ?]|]. intros _.
    assert (Hmiss : healthy_instance n s = None).
    { unfold healthy_instance.
      destruct (backendInstances s !! n) as [b|] eqn:Hb; [|done].
      destruct (cached_registered _ _ Hwf n) as [[c Hc] _];
        [by eexists | congruence]. }
    by rewrite Hmiss.
Qed.


(** ** The further properties at concrete inputs *)

(** "weaviate" is not registered. *)
Lemma unknown_backend_leaves_cache_untouched_witness :
  let s := perform_all BACKENDS
             [(InitializeBackend (JsStr "lancedb") None true, healthy_at 1)]
             initial in
  let r := initializeBackend BACKENDS (JsStr "weaviate") None true (healthy_at 2) s in
  BACKENDS !! normalizeBackendName (JsStr "weaviate") = None
  ∧ after r = s
  ∧ effects r = []
  ∧ isBackendAvailable BACKENDS (JsStr "weaviate") None (healthy_at 2) s
    = mkRun (Normal false) s [].
Proof.
  intros s r. split; [reflexivity|].
  apply (unknown_backend_leaves_cache_untouched
           [(InitializeBackend (JsStr "lancedb") None true, healthy_at 1)]
           (JsStr "weaviate") None true (healthy_at 2)).
  reflexivity.
Defined.


(** "lancedb" is probed with [isBackendAvailable], then initialized. *)
Lemma available_backend_is_served_from_cache_witness :
  let p := isBackendAvailable BACKENDS (JsStr "lancedb") None (healthy_at 1) initial in
  let r := initializeBackend BACKENDS (JsStr "lancedb") None true (healthy_at 2)
             (after p) in
  completion p = Normal true
  ∧ (∃ backend, completion r = Normal (Some backend))
  ∧ effects r = [].
Proof.
  intros p r. split; [reflexivity|].
  apply (available_backend_is_served_from_cache BACKENDS (JsStr "lancedb")
           None None true (healthy_at 1) (healthy_at 2) initial).
  reflexivity.
Defined.

(** Two backends are cached, then [resetBackendHealth()] is called. *)
Lemma reset_all_empties_cache_witness :
  let s := perform_all BACKENDS
             [(InitializeBackend (JsStr "lancedb") None true, healthy_at 1);
              (InitializeBackend (JsStr "qdrant") None true, healthy_at 2)]
             initial in
  let s' := resetBackendHealth JsNull s in
  truthy JsNull = false
  ∧ size (backendInstances s) = 2%nat
  ∧ backendInstances s' = ∅
  ∧ backendHealthStatus s' = ∅
  ∧ backendAccessTimestamps s' = backendAccessTimestamps s.
Proof.
  intros s s'. split; [reflexivity|]. split; [reflexivity|].
  apply (reset_all_empties_cache BACKENDS
           [(InitializeBackend (JsStr "lancedb") None true, healthy_at 1);
            (InitializeBackend (JsStr "qdrant") None true, healthy_at 2)]
           JsNull).
  reflexivity.
Defined.

(** Two backends are cached: two names, two objects. *)
Lemma cached_instances_are_distinct_objects_witness :
  let s := perform_all BACKENDS
             [(InitializeBackend (JsStr "standard") None true, healthy_at 1);
              (InitializeBackend (JsStr "lancedb") None true, healthy_at 2)]
             initial in
  "standard" ≠ "lancedb"
  ∧ backendInstances s !! "standard" = Some (mkBackend StandardBackend 0)
  ∧ backendInstances s !! "lancedb" = Some (mkBackend LanceDBBackend 1)
  ∧ objectId (mkBackend StandardBackend 0) ≠ objectId (mkBackend LanceDBBackend 1)
  ∧ mkBackend StandardBackend 0 ≠ mkBackend LanceDBBackend 1.
Proof.
  intros s.
  assert (Hne : "standard" ≠ "lancedb") by discriminate.
  split; [exact Hne|]. split; [reflexivity|]. split; [reflexivity|].
  exact (cached_instances_are_distinct_objects BACKENDS
           [(InitializeBackend (JsStr "standard") None true, healthy_at 1);
            (InitializeBackend (JsStr "lancedb") None true, healthy_at 2)]
           "standard" "lancedb" (mkBackend StandardBackend 0)
           (mkBackend LanceDBBackend 1) Hne eq_refl eq_refl).
Defined.

(** "lancedb" is cached, reset and initialized again. *)
Lemma reset_then_initialize_constructs_anew_witness :
  let s := perform_all BACKENDS
             [(InitializeBackend (JsStr "lancedb") None true, healthy_at 1)]
             initial in
  let r := initializeBackend BACKENDS (JsStr "lancedb") None true (healthy_at 2)
             (resetBackendHealth (JsStr "lancedb") s) in
  backendInstances s !! "lancedb" = Some (mkBackend LanceDBBackend 0)
  ∧ effects r = [EvNew LanceDBBackend; EvInitialize LanceDBBackend None;
                 EvHealthCheck LanceDBBackend]
  ∧ ∃ backend,
      completion r = Normal (Some backend)
      ∧ backendInstances (after r) !! "lancedb" = Some backend
      ∧ ∀ k old, backendInstances s !! k = Some old → old ≠ backend.
Proof.
  intros s r. split; [reflexivity|].
  apply (reset_then_initialize_constructs_anew BACKENDS
           [(InitializeBackend (JsStr "lancedb") None true, healthy_at 1)]
           (JsStr "lancedb") None true (healthy_at 2) LanceDBBackend);
    reflexivity.
Defined.

(** The full cache with the stale entry of "chroma". *)
Lemma eviction_victim_is_first_oldest_witness :
  (MAX_CACHED_BACKENDS ≤ size (backendInstances stale_timestamp_state))%nat
  ∧ backendAccessTimestamps stale_timestamp_state ≠ []
  ∧ ∃ pre name t post,
      backendAccessTimestamps stale_timestamp_state
      = (pre ++ (name, t) :: post)%list
      ∧ (∀ e, e ∈ pre → t < e.2)
      ∧ (∀ e, e ∈ post → t ≤ e.2)
      ∧ evictLRUBackendIfNeeded stale_timestamp_state
        = if truthy_string name then forget name stale_timestamp_state
          else stale_timestamp_state.
Proof.
  assert (Hfull : (MAX_CACHED_BACKENDS
                   ≤ size (backendInstances stale_timestamp_state))%nat)
    by (vm_compute; lia).
  assert (Hne : backendAccessTimestamps stale_timestamp_state ≠ [])
    by discriminate.
  split; [exact Hfull|]. split; [exact Hne|].
  exact (eviction_victim_is_first_oldest stale_timestamp_state Hfull Hne).
Defined.

Lemma no_reset_in_fill_calls :
  Forall (fun c : Call * Env => is_reset c.1 = false) fill_calls.
Proof. repeat constructor. Defined.

(** Six initializations over the extended registry: five stay cached. *)
Lemma cache_bounded_without_reset_witness :
  let s := perform_all BACKENDS_extended fill_calls initial in
  size (backendInstances s) = 5%nat
  ∧ backendInstances s !! "chroma" = None
  ∧ (size (backendInstances s) ≤ MAX_CACHED_BACKENDS)%nat
  ∧ ∀ k, is_Some (Obj.get k (backendAccessTimestamps s))
         ↔ is_Some (backendInstances s !! k).
Proof.
  intros s. split; [reflexivity|]. split; [reflexivity|].
  exact (cache_bounded_without_reset BACKENDS_extended fill_calls
           no_reset_in_fill_calls).
Defined.

(** The first five of them fill the cache; the eviction step then removes
    one instance. *)
Lemma eviction_removes_least_recently_used_witness :
  let s := perform_all BACKENDS_extended (take 5 fill_calls) initial in
  (MAX_CACHED_BACKENDS ≤ size (backendInstances s))%nat
  ∧ ∃ name t,
      is_Some (backendInstances s !! name)
      ∧ (name, t) ∈ backendAccessTimestamps s
      ∧ (∀ e, e ∈ backendAccessTimestamps s → t ≤ e.2)
      ∧ evictLRUBackendIfNeeded s = forget name s
      ∧ size (backendInstances (evictLRUBackendIfNeeded s))
        = pred (size (backendInstances s)).
Proof.
  intros s.
  assert (Hfull : (MAX_CACHED_BACKENDS ≤ size (backendInstances s))%nat)
    by (vm_compute; lia).
  split; [exact Hfull|].
  apply (eviction_removes_least_recently_used BACKENDS_extended (take 5 fill_calls));
    [repeat constructor | exact Hfull].
Defined.

Example eviction_removes_chroma :
  evictLRUBackendIfNeeded (perform_all BACKENDS_extended (take 5 fill_calls) initial)
  = forget "chroma" (perform_all BACKENDS_extended (take 5 fill_calls) initial).
Proof. vm_compute. reflexivity. Qed.


(** * Properties of the LanceDB backend *)

Module LanceDBFacts.

Import LanceDB.

Example strip_examples :
  _stripRegistryPrefix (JsStr "lancedb:openai:vecthare_chat_1") = JsStr "vecthare_chat_1"
  ∧ _stripRegistryPrefix (JsStr "openai:vecthare_chat_1") = JsStr "vecthare_chat_1"
  ∧ _stripRegistryPrefix (JsStr "vecthare_chat_1") = JsStr "vecthare_chat_1"
  ∧ _stripRegistryPrefix (JsStr "lancedb:vecthare_chat_1") = JsStr "lancedb:vecthare_chat_1"
  ∧ _stripRegistryPrefix (JsStr "qdrant:cohere:a:b:") = JsStr "a:b:"
  ∧ split ":" "a::b:" = ["a"; EmptyString; "b"; EmptyString]%string.
Proof. vm_compute. by repeat split. Qed.

(** ** [split] and [join] *)

Lemma split_nonempty (sep : ascii) (s : string) : split sep s ≠ [].
Proof.
  destruct s as [|c rest]; simpl; [done|].
  destruct (Ascii.eqb c sep); [done|]. by destruct (split sep rest).
Qed.

Lemma join_cons (sep piece : string) (pieces : list string) :
  pieces ≠ [] → join sep (piece :: pieces) = piece +:+ sep +:+ join sep pieces.
Proof. by destruct pieces. Qed.

Lemma join_split (sep : ascii) (s : string) :
  join (String sep EmptyString) (split sep s) = s.
Proof.
  induction s as [|c rest IH]; simpl; [done|].
  pose proof (split_nonempty sep rest) as Hne.
  destruct (Ascii.eqb c sep) eqn:Hc.
  - apply Ascii.eqb_eq in Hc as ->.
    rewrite join_cons by done. simpl. by rewrite IH.
  - destruct (split sep rest) as [|piece pieces]; [done|].
    destruct pieces as [|piece' pieces].
    + simpl in *. by rewrite IH.
    + rewrite <- IH. rewrite !(join_cons _ _ (piece' :: pieces)) by done.
      reflexivity.
Qed.

Lemma split_app (sep : ascii) (a rest : string) :
  no_sep sep a = true →
  split sep (a +:+ String sep rest) = a :: split sep rest.
Proof.
  induction a as [|c a IH]; simpl.
  - intros _. by rewrite Ascii.eqb_refl.
  - intros [Hc Ha]%andb_true_iff. apply negb_true_iff in Hc.
    by rewrite Hc, IH.
Qed.

Lemma split_no_sep (sep : ascii) (a : string) :
  no_sep sep a = true → split sep a = [a].
Proof.
  induction a as [|c a IH]; simpl; [done|].
  intros [Hc Ha]%andb_true_iff. apply negb_true_iff in Hc.
  by rewrite Hc, IH.
Qed.

Lemma includes_elem (l : list string) (x : string) :
  includes l x = true ↔ x ∈ l.
Proof.
  unfold includes. rewrite existsb_exists. split.
  - intros (y & Hy & ->%String.eqb_eq). by apply list_elem_of_In.
  - intros Hx. exists x. split; [by apply list_elem_of_In | apply String.eqb_refl].
Qed.

Lemma known_names_have_no_colon (x : string) :
  includes knownBackends x = true ∨ includes knownSources x = true →
  no_sep ":" x = true.
Proof.
  assert (Hall : Forall (λ y, no_sep ":" y = true) (knownBackends ++ knownSources))
    by (repeat constructor).
  rewrite Forall_forall in Hall. intros Hx. apply Hall.
  rewrite elem_of_app, <- !includes_elem. done.
Qed.

Lemma known_source_is_no_backend (x : string) :
  includes knownSources x = true → includes knownBackends x = false.
Proof.
  assert (Hall : Forall (λ y, includes knownBackends y = false) knownSources)
    by (repeat constructor).
  rewrite Forall_forall in Hall. intros Hx. by apply Hall, includes_elem.
Qed.

Lemma known_name_truthy (x rest : string) :
  includes knownBackends x = true ∨ includes knownSources x = true →
  truthy_string (x +:+ rest) = true.
Proof.
  assert (Hall : Forall (λ y, y ≠ EmptyString) (knownBackends ++ knownSources))
    by (repeat constructor; done).
  rewrite Forall_forall in Hall. intros Hx.
  assert (x ≠ EmptyString) as Hne.
  { apply Hall. rewrite elem_of_app, <- !includes_elem. done. }
  by destruct x.
Qed.

Lemma known_backend_is_no_source (x : string) :
  includes knownBackends x = true → includes knownSources x = false.
Proof.
  assert (Hall : Forall (λ y, includes knownSources y = false) knownBackends)
    by (repeat constructor).
  rewrite Forall_forall in Hall. intros Hx. by apply Hall, includes_elem.
Qed.

Lemma split_length (sep : ascii) (s : string) : (1 ≤ length (split sep s))%nat.
Proof.
  pose proof (split_nonempty sep s). destruct (split sep s); simpl; [done | lia].
Qed.

Lemma append_cons (c : ascii) (s t : string) :
  String c s +:+ t = String c (s +:+ t).
Proof. reflexivity. Qed.

Lemma append_nil_r (s : string) : s +:+ EmptyString = s.
Proof. induction s as [|c s IH]; [done|]. by rewrite append_cons, IH. Qed.

Lemma append_assoc (s t u : string) : (s +:+ t) +:+ u = s +:+ t +:+ u.
Proof. induction s as [|c s IH]; [done|]. by rewrite !append_cons, IH. Qed.

Lemma join_drop_suffix (sep : string) (k : nat) (parts : list string) :
  ∃ p, join sep parts = p +:+ join sep (drop k parts).
Proof.
  revert parts. induction k as [|k IH]; intros parts.
  { exists EmptyString. by rewrite drop_0. }
  destruct parts as [|a l]; [by exists EmptyString|]. simpl drop.
  destruct l as [|a' l].
  - exists a. rewrite drop_nil. simpl. by rewrite append_nil_r.
  - destruct (IH (a' :: l)) as [p Hp].
    exists (a +:+ sep +:+ p). rewrite join_cons by done. rewrite Hp.
    by rewrite !append_assoc.
Qed.

(** ** [_stripRegistryPrefix] *)

(** X16: a registry key [backend:source:collectionId], with a known
    backend and a known source, is stripped to exactly the collection id,
    whatever the id contains (colons, nothing at all). *)
Theorem strip_backend_source_prefix (backend source collectionId : string) :
  includes knownBackends backend = true →
  includes knownSources source = true →
  _stripRegistryPrefix
    (JsStr (backend +:+ ":" +:+ source +:+ ":" +:+ collectionId))
  = JsStr collectionId.
Proof.
  intros Hb Hs. unfold _stripRegistryPrefix.
  rewrite known_name_truthy by by left.
  change (backend +:+ ":" +:+ source +:+ ":" +:+ collectionId)
    with (backend +:+ String ":" (source +:+ String ":" collectionId)).
  rewrite !split_app by (apply known_names_have_no_colon; auto).
  pose proof (split_length ":" collectionId) as Hlen.
  set (parts := split ":" collectionId) in *.
  change (part (backend :: source :: parts) 0) with (JsStr backend).
  change (part (backend :: source :: parts) 1) with (JsStr source).
  change (drop 2 (backend :: source :: parts)) with parts.
  unfold includes_part. rewrite Hb, Hs.
  replace (Nat.leb 3 (length (backend :: source :: parts))) with true
    by (symmetry; apply Nat.leb_le; simpl; lia).
  cbn [andb]. subst parts. by rewrite join_split.
Qed.

(** X17: an old-format key [source:collectionId], with a known source, is
    stripped to exactly the collection id. *)
Theorem strip_source_prefix (source collectionId : string) :
  includes knownSources source = true →
  _stripRegistryPrefix (JsStr (source +:+ ":" +:+ collectionId))
  = JsStr collectionId.
Proof.
  intros Hs. unfold _stripRegistryPrefix.
  rewrite known_name_truthy by by right.
  change (source +:+ ":" +:+ collectionId)
    with (source +:+ String ":" collectionId).
  rewrite split_app by (apply known_names_have_no_colon; auto).
  pose proof (split_length ":" collectionId) as Hlen.
  set (parts := split ":" collectionId) in *.
  change (part (source :: parts) 0) with (JsStr source).
  change (drop 1 (source :: parts)) with parts.
  unfold includes_part at 1 3.
  rewrite (known_source_is_no_backend _ Hs), Hs, andb_false_r.
  replace (Nat.leb 2 (length (source :: parts))) with true
    by (symmetry; apply Nat.leb_le; simpl; lia).
  cbn [andb]. subst parts. by rewrite join_split.
Qed.

(** X18: [_stripRegistryPrefix] only ever removes a prefix: the result is
    a string that ends the argument; [undefined], [null] and the empty
    string come back as they are. *)
Theorem strip_returns_suffix (collectionId : JsName) :
  match collectionId with
  | JsStr s =>
      ∃ prefix kept,
        _stripRegistryPrefix collectionId = JsStr kept
        ∧ s = prefix +:+ kept
        ∧ (s = EmptyString → kept = EmptyString)
  | _ => _stripRegistryPrefix collectionId = collectionId
  end.
Proof.
  destruct collectionId as [| |s]; [done..|].
  unfold _stripRegistryPrefix.
  destruct (truthy_string s) eqn:Hs.
  2:{ exists EmptyString, s. by repeat split. }
  assert (Hne : s = EmptyString → False) by (intros ->; done).
  destruct (_ && _ && _).
  { destruct (join_drop_suffix ":" 2 (split ":" s)) as [p Hp].
    rewrite join_split in Hp. exists p. eexists. by repeat split. }
  destruct (_ && _).
  { destruct (join_drop_suffix ":" 1 (split ":" s)) as [p Hp].
    rewrite join_split in Hp. exists p. eexists. by repeat split. }
  exists EmptyString, s. by repeat split.
Qed.

(** X19: what is not a registry key is left alone: an id without colon,
    and an id that starts with a known backend name not followed by a
    known source, come back unchanged. *)
Theorem strip_keeps_plain_ids (collectionId : string) :
  (no_sep ":" collectionId = true →
   _stripRegistryPrefix (JsStr collectionId) = JsStr collectionId)
  ∧ (∀ backend rest,
       collectionId = backend +:+ ":" +:+ rest →
       includes knownBackends backend = true →
       includes_part knownSources (part (split ":" rest) 0) = false →
       _stripRegistryPrefix (JsStr collectionId) = JsStr collectionId).
Proof.
  split.
  - intros Hplain. unfold _stripRegistryPrefix.
    rewrite (split_no_sep _ _ Hplain). simpl.
    by destruct (truthy_string collectionId).
  - intros backend rest -> Hb Hrest. unfold _stripRegistryPrefix.
    rewrite known_name_truthy by by left.
    change (backend +:+ ":" +:+ rest) with (backend +:+ String ":" rest).
    rewrite split_app by (apply known_names_have_no_colon; auto).
    change (part (backend :: split ":" rest) 1) with (part (split ":" rest) 0).
    change (part (backend :: split ":" rest) 0) with (JsStr backend).
    rewrite Hrest. unfold includes_part at 2.
    by rewrite (known_backend_is_no_source _ Hb), !andb_false_r.
Qed.

(** ** [initialize] and [healthCheck] *)

Lemma healthCheck_cases (fetched : Fetched) :
  (∃ healthy, healthCheck fetched = Returns healthy)
  ∧ (healthCheck fetched = Returns true ↔ reports_healthy fetched).
Proof.
  unfold healthCheck, healthCheck_try, reports_healthy.
  destruct fetched as [m|[o st stt j t]]; simpl.
  { split; [by eexists|]. split; [done | by intros (? & ? & ? & _)]. }
  destruct o; simpl.
  2:{ split; [by eexists|].
      split; [done | intros (r & f & [= <-] & Hok & _); done]. }
  destruct j as [data|m]; simpl.
  2:{ split; [by eexists|].
      split; [done | intros (r & f & [= <-] & _ & Hj & _); done]. }
  destruct data as [|b|z l|str|items|fields]; simpl;
    try (split; [by eexists|];
         split; [done | intros (r & f & [= <-] & _ & Hj & _); done]).
  destruct (property "healthy" fields) as [[|[]|z l|str|items|fs]|] eqn:Hp; simpl;
    (split; [by eexists|]).
  all: split; try done.
  all: try (intros (r & f & [= <-] & _ & [= <-] & Hh); simpl in *; congruence).
  intros _. eexists. exists fields. by repeat split.
Qed.

(** X20: [healthCheck] never throws, whatever the network does (the
    request is rejected, the body is not JSON, the body is [null]); it
    answers [true] exactly when the response is ok and its body is an
    object whose [healthy] is the boolean [true], so a truthy value that
    is not [true] (a number, a string) counts as unhealthy. *)
Theorem healthCheck_never_throws (fetched : Fetched) :
  (∃ healthy, healthCheck fetched = Returns healthy)
  ∧ (healthCheck fetched = Returns true ↔ reports_healthy fetched).
Proof. apply healthCheck_cases. Qed.


(** X21: the LanceDB backend through the manager.  When "lancedb" has no
    healthy cached instance and the constructor returns,
    [initializeBackend] hands out (and caches) a LanceDB instance exactly
    when the init endpoint answered with an ok status and the health
    endpoint reported healthy; when the init endpoint fails, the health
    endpoint is not contacted; and the health probe never makes the
    manager's call throw. *)
Theorem lancedb_cached_iff_endpoints_healthy
    settings throwOnFail (t : Z) global (init health : Fetched) (s : State) :
  healthy_instance "lancedb" s = None →
  let w := mkEnv t (lancedb_attempt (Returns tt) init health) global in
  let r := initializeBackend BACKENDS (JsStr "lancedb") settings throwOnFail w s in
  ((∃ backend, completion r = Normal (Some backend))
   ↔ (∃ response, init = FetchResolves response ∧ ok response = true)
     ∧ reports_healthy health)
  ∧ (initialize init ≠ Returns tt →
     effects r = [EvNew LanceDBBackend; EvInitialize LanceDBBackend settings])
  ∧ (initialize init = Returns tt →
     completion r = Normal None
     ∨ completion r = Abrupt (FailedHealthCheck "lancedb")
     ∨ ∃ backend, completion r = Normal (Some backend)).
Proof.
  intros Hmiss w r. subst r w.
  assert (Hn : normalizeBackendName (JsStr "lancedb") = "lancedb") by reflexivity.
  assert (Hreg : BACKENDS !! "lancedb" = Some LanceDBBackend) by reflexivity.
  unfold initializeBackend, try_initialize. rewrite Hn, Hmiss, Hreg. simpl.
  unfold lancedb_attempt.
  destruct (healthCheck_cases health) as [[healthy Hh] Hiff].
  rewrite Hh.
  destruct init as [m|[o st stt j tx]]; simpl.
  { destruct throwOnFail; simpl.
    all: split; [|split; [done | done]].
    all: split; [by intros [? ?] | by intros [(? & ? & _) _]]. }
  destruct o; simpl.
  2:{ destruct throwOnFail; simpl.
      all: split; [|split; [done | done]].
      all: split; [by intros [? ?] | intros [(? & [= <-] & ?) _]; done]. }
  destruct healthy, throwOnFail; simpl.
  all: split; [|split; [done|]].
  all: try (split; [|by eexists]; intros _; split; [by eexists | by apply Hiff]).
  all: try (split; [by intros [? ?] | intros [_ Hr%Hiff]; congruence]).
  all: intros _; eauto.
Qed.

(** ** Purging every collection *)

Section ProvidersFacts.

Variable getModelField : Value → JsName.

Lemma printable_to_string (v : Value) :
  printable v = true → ∃ shown, to_string v = Returns shown.
Proof.
  destruct v as [j|]; simpl; [|by eexists].
  intros ->. by eexists.
Qed.

Lemma source_of_with_source settings source :
  source_of (with_source settings source)
  = or_else source (Some (JString "transformers")).
Proof.
  unfold source_of, with_source. destruct source as [v|].
  - by rewrite lookup_insert_eq.
  - by rewrite lookup_delete_eq.
Qed.

(** The turns of the loop over collections that are objects with an id
    that can be rendered: one request each, whatever the answers, and the
    loop goes on with what follows. *)
Lemma purge_each_rows settings rows rest index purges :
  forallb (fun row => printable (property "id" row)) rows = true →
  let next := purge_each getModelField settings rest (index + length rows) purges in
  purge_each getModelField settings ((JObject <$> rows) ++ rest)%list index purges
  = (next.1,
     (List.map (fun row =>
        purge_request getModelField (property "id" row)
          (with_source settings (property "source" row))) rows
      ++ next.2)%list).
Proof.
  revert index. induction rows as [|row rows IH]; intros index Hrows next.
  { subst next. simpl. rewrite Nat.add_0_r. by destruct (purge_each _ _ _ _ _). }
  apply andb_true_iff in Hrows as [Hrow Hrows].
  destruct (printable_to_string _ Hrow) as [shown Hshown].
  subst next. change (length (row :: rows)) with (S (length rows)).
  replace (index + S (length rows))%nat with (S index + length rows)%nat by lia.
  change ((JObject <$> row :: rows) ++ rest)%list
    with (JObject row :: ((JObject <$> rows) ++ rest))%list.
  cbn [purge_each]. rewrite (IH (S index) Hrows). cbn [fst snd].
  change (get (Some (JObject row)) "id") with (Returns (property "id" row)).
  change (get (Some (JObject row)) "source") with (Returns (property "source" row)).
  cbn [mbind outcome_bind]. rewrite Hshown.
  unfold purgeVectorIndex. cbn [fst snd].
  by destruct (match purges index with
               | FetchRejects _ => _
               | FetchResolves _ => _
               end).
Qed.

(** X22: a [null] entry in the listing ends [purgeAllVectorIndexes] with
    a [TypeError], although every purge runs inside [try]/[catch]: the
    handler reads [collection.id] again.  The collections listed before it
    are purged, the ones listed after it are not. *)
Theorem purgeAll_stops_at_null_collection
    settings response fields before later purges :
  ok response = true →
  json response = Returns (JObject fields) →
  property "collections" fields
  = Some (JArray ((JObject <$> before) ++ JNull :: later)%list) →
  forallb (fun row => printable (property "id" row)) before = true →
  purgeAllVectorIndexes getModelField settings (FetchResolves response) purges
  = (Throws "Cannot read properties of null",
     collections_request ::
     List.map (fun row =>
       purge_request getModelField (property "id" row)
         (with_source settings (property "source" row))) before).
Proof.
  intros Hok Hjson Hlisted Hrows.
  unfold purgeAllVectorIndexes, listed_collections.
  rewrite Hok, Hjson. simpl. rewrite Hlisted. simpl.
  rewrite (purge_each_rows settings before (JNull :: later) 0 purges Hrows).
  simpl. by rewrite app_nil_r.
Qed.

(** X23: when the collections endpoint answers ok with an object whose
    [collections] is an array of objects with ids that can be rendered,
    [purgeAllVectorIndexes] returns normally after the listing request and
    exactly one purge request per collection, in order, whatever the purge
    endpoint answers (rejections and error statuses included).  Each purge
    request names the backend "lancedb", the collection's id without
    registry prefix, and the collection's own source (or "transformers"),
    never [settings.source]. *)
Theorem purgeAll_purges_every_collection settings response fields rows purges :
  ok response = true →
  json response = Returns (JObject fields) →
  property "collections" fields = Some (JArray (JObject <$> rows)) →
  forallb (fun row => printable (property "id" row)) rows = true →
  purgeAllVectorIndexes getModelField settings (FetchResolves response) purges
  = (Returns tt,
     collections_request ::
     List.map (fun row =>
       {| url := "/api/plugins/similharity/chunks/purge";
          method := "POST";
          body := [("backend", Some (JString "lancedb"));
                   ("collectionId", strip_value (property "id" row));
                   ("source", or_else (property "source" row)
                                (Some (JString "transformers")));
                   ("model", getModelFromSettings getModelField
                               (with_source settings (property "source" row)))] |})
       rows).
Proof.
  intros Hok Hjson Hlisted Hrows.
  unfold purgeAllVectorIndexes, listed_collections.
  rewrite Hok, Hjson. simpl. rewrite Hlisted. simpl.
  pose proof (purge_each_rows settings rows [] 0 purges Hrows) as Hloop.
  rewrite app_nil_r in Hloop. rewrite Hloop. simpl. rewrite app_nil_r.
  f_equal. f_equal. apply map_ext. intros row. unfold purge_request.
  by rewrite source_of_with_source.
Qed.

(** ** Querying *)

Lemma read_put_eq {A} (k : string) (v : A) (o : list (string * A)) :
  read k (put k v o) = Some v.
Proof.
  induction o as [|[k' v'] rest IH]; simpl.
  - by rewrite String.eqb_refl.
  - destruct (String.eqb k' k) eqn:E; simpl; rewrite E; [done | exact IH].
Qed.

Lemma read_put_ne {A} (k j : string) (v : A) (o : list (string * A)) :
  k ≠ j → read j (put k v o) = read j o.
Proof.
  intros Hne. induction o as [|[k' v'] rest IH]; simpl.
  - destruct (String.eqb k j) eqn:E; [|done]. by apply String.eqb_eq in E.
  - destruct (String.eqb k' k) eqn:E; simpl.
    + apply String.eqb_eq in E as ->.
      destruct (String.eqb k j) eqn:E'; [|done]. by apply String.eqb_eq in E'.
    + by rewrite IH.
Qed.

Lemma read_put_is_Some {A} (k j : string) (v : A) (o : list (string * A)) :
  is_Some (read j (put k v o)) ↔ j = k ∨ is_Some (read j o).
Proof.
  destruct (decide (k = j)) as [->|Hne].
  - rewrite read_put_eq. split; [by left | by eexists].
  - rewrite read_put_ne by done. split; [by right | by intros [?|?]].
Qed.

Lemma read_absent {A} (k : string) (o : list (string * A)) :
  k ∉ o.*1 → read k o = None.
Proof.
  induction o as [|[k' v'] rest IH]; simpl; [done|].
  intros Hk. destruct (String.eqb k' k) eqn:E.
  - apply String.eqb_eq in E as ->. exfalso. apply Hk. by left.
  - apply IH. intros Hin. apply Hk. by right.
Qed.

Lemma read_assigned {A} (k : string) (base l : list (string * A)) :
  NoDup l.*1 →
  read k (foldl (fun o kv => put kv.1 kv.2 o) base l)
  = match read k l with
    | Some v => Some v
    | None => read k base
    end.
Proof.
  revert base. induction l as [|[k' v'] rest IH]; intros base Hnd; simpl; [done|].
  apply NoDup_cons in Hnd as [Hout Hnd]. simpl in Hout. rewrite IH by done.
  destruct (String.eqb k' k) eqn:E.
  - apply String.eqb_eq in E as ->.
    by rewrite (read_absent _ _ Hout), read_put_eq.
  - rewrite read_put_ne; [done|]. intros ->. by rewrite String.eqb_refl in E.
Qed.

Lemma read_spread_object (k : string) (fields : list (string * Json)) :
  read k (spread (Some (JObject fields)))
  = match property k fields with
    | Some v => Some (Some v)
    | None => None
    end.
Proof.
  simpl. induction fields as [|[k' v'] rest IH]; simpl; [done|].
  by destruct (String.eqb k' k).
Qed.

Lemma spread_object_keys (fields : list (string * Json)) :
  (spread (Some (JObject fields))).*1 = fields.*1.
Proof. simpl. induction fields as [|[k v] rest IH]; simpl; [done | by f_equal]. Qed.

(** X24: in a query result, the properties of a row's [metadata] object
    take precedence over the row's own [hash], [text] and [score]: the
    entry built for a row reads, under every name, what [metadata] has
    under that name, and falls back to the row's [hash], [text] and
    [score] only where [metadata] has nothing.  (The [hashes] array is
    built from the rows' own [hash].) *)
Theorem row_metadata_overrides_fields
    (fields mfields : list (string * Json)) (name : string) :
  property "metadata" fields = Some (JObject mfields) →
  NoDup mfields.*1 →
  ∃ e,
    entry (JObject fields) = Returns e
    ∧ read name e
      = match property name mfields with
        | Some v => Some (Some v)
        | None =>
            read name [("hash", property "hash" fields);
                       ("text", property "text" fields);
                       ("score", property "score" fields)]
        end.
Proof.
  intros Hmeta Hnd. unfold entry. simpl. rewrite Hmeta. simpl.
  eexists. split; [done|].
  change (List.map (λ kv : string * Json, (kv.1, Some kv.2)) mfields)
    with (spread (Some (JObject mfields))).
  rewrite read_assigned by by rewrite spread_object_keys.
  rewrite read_spread_object. by destruct (property name mfields).
Qed.

#[local] Arguments get : simpl never.

Lemma map_outcome_length {A B} (f : A → Outcome B) (l : list A) (ys : list B) :
  map_outcome f l = Returns ys → length ys = length l.
Proof.
  revert ys. induction l as [|x rest IH]; intros ys; simpl.
  - by intros [= <-].
  - destruct (f x) as [y|m]; simpl; [|done].
    destruct (map_outcome f rest) as [ys'|m]; simpl; [|done].
    intros [= <-]. simpl. by rewrite (IH ys').
Qed.

Lemma format_results_shape (rows : Value) (found : QueryResult) :
  format_results rows = Returns found →
  ∃ items,
    rows = Some (JArray items)
    ∧ length (hashes found) = length items
    ∧ length (metadata found) = length items.
Proof.
  unfold format_results.
  destruct rows as [[|b|z l|str|items|fs]|]; simpl; try done.
  destruct (map_outcome (λ r, get (Some r) "hash") items) as [hs|m] eqn:Hh;
    simpl; [|done].
  destruct (map_outcome entry items) as [ms|m] eqn:Hm; simpl; [|done].
  intros [= <-]. exists items. simpl.
  by rewrite (map_outcome_length _ _ _ Hh), (map_outcome_length _ _ _ Hm).
Qed.

(** X25: [queryCollection] returns only when the query endpoint answered
    ok with a body whose [results] is an array (an ok answer without
    [results] makes it throw), and then [hashes] and [metadata] both have
    exactly one element per row. *)
Theorem queryCollection_returns_one_entry_per_row
    collectionId searchText topK settings fetched (found : QueryResult) :
  (queryCollection getModelField collectionId searchText topK settings fetched).1
  = Returns found →
  ∃ response data items,
    fetched = FetchResolves response
    ∧ ok response = true
    ∧ json response = Returns data
    ∧ get (Some data) "results" = Returns (Some (JArray items))
    ∧ length (hashes found) = length items
    ∧ length (metadata found) = length items.
Proof.
  unfold queryCollection.
  destruct (_ ← to_string collectionId; to_string (strip_value collectionId))
    as [shown|m]; [|done].
  cbn [fst].
  destruct fetched as [m|response]; [done|].
  destruct (ok response) eqn:Hok; simpl; [|by destruct (to_string collectionId)].
  destruct (json response) as [data|m] eqn:Hjson; simpl; [|done].
  destruct (get (Some data) "results") as [results|m] eqn:Hres; simpl; [|done].
  intros (items & -> & Hh & Hm)%format_results_shape.
  by exists response, data, items.
Qed.

Lemma query_each_spec collectionIds searchText topK threshold settings
    index fetches results requests :
  let out := query_each getModelField collectionIds searchText topK threshold
               settings index fetches results requests in
  out.2 = (requests ++ List.map (fun id =>
             query_request getModelField (Some (JString id)) searchText topK
               threshold settings) collectionIds)%list
  ∧ (∀ k, is_Some (read k (own out.1))
          ↔ (k ∈ collectionIds ∧ k ≠ "__proto__") ∨ is_Some (read k (own results)))
  ∧ (is_Some (prototype out.1)
     ↔ "__proto__" ∈ collectionIds ∨ is_Some (prototype results))
  ∧ (∀ k, k ∉ collectionIds → read k (own out.1) = read k (own results))
  ∧ (NoDup collectionIds →
     ∀ j id, collectionIds !! j = Some id → id ≠ "__proto__" →
             read id (own out.1) = Some (turn_result (fetches (index + j)%nat))).
Proof.
  revert index results requests.
  induction collectionIds as [|id0 rest IH]; intros index results requests; simpl.
  { split; [by rewrite app_nil_r|]. split; [|split; [|split; [done|done]]].
    - intros k. rewrite elem_of_nil. split; [by right | by intros [[[] _]|?]].
    - rewrite elem_of_nil. split; [by right | by intros [[]|?]]. }
  destruct (IH (S index) (assign id0 (turn_result (fetches index)) results)
              (requests ++ [query_request getModelField (Some (JString id0))
                              searchText topK threshold settings])%list)
    as (Hreq & Hkeys & Hproto & Hother & Hturn).
  assert (Hown : ∀ k, read k (own (assign id0 (turn_result (fetches index)) results))
                      = if decide (k = id0 ∧ k ≠ "__proto__")
                        then Some (turn_result (fetches index))
                        else read k (own results)).
  { intros k. unfold assign. destruct (String.eqb id0 "__proto__") eqn:E; simpl.
    - apply String.eqb_eq in E as ->. case_decide as Hk; [by destruct Hk | done].
    - assert (id0 ≠ "__proto__") as Hne
        by (intros ->; by rewrite String.eqb_refl in E).
      case_decide as Hk.
      + destruct Hk as [-> _]. apply read_put_eq.
      + apply read_put_ne. intros ->. by apply Hk. }
  split; [|split; [|split; [|split]]].
  - rewrite Hreq. by rewrite <- app_assoc.
  - intros k. rewrite Hkeys, Hown, elem_of_cons.
    case_decide as Hk.
    + split; [|by right; eexists]. intros _. left. destruct Hk. by split; [left|].
    + split; [intros [[? ?]|?]; [left; split; [by right|done] | by right]|].
      intros [[[->|?] ?]|?]; [by destruct Hk | by left | by right].
  - rewrite Hproto, elem_of_cons. unfold assign.
    destruct (String.eqb id0 "__proto__") eqn:E; simpl.
    + apply String.eqb_eq in E as ->. split; [by left; left | by right; eexists].
    + assert (id0 ≠ "__proto__") as Hne
        by (intros ->; by rewrite String.eqb_refl in E).
      split; [intros [?|?]; [by left; right | by right]|].
      intros [[?|?]|?]; [done | by left | by right].
  - intros k Hk. rewrite Hother by (intros ?; apply Hk; by right).
    rewrite Hown. case_decide as Hk'; [|done].
    destruct Hk' as [-> _]. exfalso. apply Hk. by left.
  - intros [Hout Hnd]%NoDup_cons [|j] id Hj Hplain; simpl in Hj.
    + injection Hj as <-. rewrite Hother by done.
      rewrite Hown, Nat.add_0_r. by rewrite decide_True.
    + rewrite (Hturn Hnd j id Hj Hplain).
      by replace (S index + j)%nat with (index + S j)%nat by lia.
Qed.

(** X26: [queryMultipleCollections] answers for every collection it was
    asked about and for no other: the object it returns has a property of
    its own exactly for the requested ids, the id "__proto__" apart, whose
    result becomes the prototype of the returned object instead.  It
    sends one query request per id, in order, each with the id stripped of
    its registry prefix. *)
Theorem queryMultiple_answers_every_collection
    collectionIds searchText topK threshold settings fetches :
  let out := queryMultipleCollections getModelField collectionIds searchText
               topK threshold settings fetches in
  (∀ id, is_Some (read id (own out.1)) ↔ id ∈ collectionIds ∧ id ≠ "__proto__")
  ∧ (is_Some (prototype out.1) ↔ "__proto__" ∈ collectionIds)
  ∧ out.2 = List.map (fun id =>
              query_request getModelField (Some (JString id)) searchText topK
                threshold settings) collectionIds.
Proof.
  intros out.
  destruct (query_each_spec collectionIds searchText topK threshold settings
              0 fetches (mkResults [] None) []) as (Hreq & Hkeys & Hproto & _).
  split; [|split; [|exact Hreq]].
  - intros id. unfold out, queryMultipleCollections. rewrite Hkeys. simpl.
    split; [by intros [?|[? ?]] | by left].
  - unfold out, queryMultipleCollections. rewrite Hproto. simpl.
    split; [by intros [?|[? ?]] | by left].
Qed.

(** X27: [queryMultipleCollections] isolates failures: for distinct ids,
    the entry of the [j]-th collection is decided by the [j]-th answer of
    the query endpoint alone, and it is the empty result (no hashes, no
    metadata) when that request is rejected, answered with an error
    status, or answered with a body that is not JSON. *)
Theorem queryMultiple_isolates_failures
    collectionIds searchText topK threshold settings fetches (j : nat) (id : string) :
  NoDup collectionIds →
  collectionIds !! j = Some id →
  id ≠ "__proto__" →
  let out := queryMultipleCollections getModelField collectionIds searchText
               topK threshold settings fetches in
  read id (own out.1) = Some (turn_result (fetches j))
  ∧ ((∃ message, fetches j = FetchRejects message)
     ∨ (∃ response, fetches j = FetchResolves response
          ∧ (ok response = false ∨ ∃ message, json response = Throws message)) →
     read id (own out.1) = Some no_results).
Proof.
  intros Hnd Hj Hplain out.
  destruct (query_each_spec collectionIds searchText topK threshold settings
              0 fetches (mkResults [] None) []) as (_ & _ & _ & _ & Hturn).
  pose proof (Hturn Hnd j id Hj Hplain) as Hread. simpl in Hread.
  split; [exact Hread|]. unfold out, queryMultipleCollections. rewrite Hread.
  unfold turn_result, query_turn.
  intros [[m ->]|(response & -> & [Hok|[m Hjson]])]; [done| |].
  - by rewrite Hok.
  - destruct (ok response); [|done]. by rewrite Hjson.
Qed.

End ProvidersFacts.

(** ** The properties above at concrete inputs *)

Lemma strip_backend_source_prefix_witness :
  includes knownBackends "lancedb" = true
  ∧ includes knownSources "openai" = true
  ∧ _stripRegistryPrefix (JsStr "lancedb:openai:vecthare_chat:12")
    = JsStr "vecthare_chat:12".
Proof.
  split; [reflexivity|]. split; [reflexivity|].
  apply (strip_backend_source_prefix "lancedb" "openai" "vecthare_chat:12");
    reflexivity.
Defined.

Lemma strip_source_prefix_witness :
  includes knownSources "ollama" = true
  ∧ _stripRegistryPrefix (JsStr "ollama:vecthare_chat_12")
    = JsStr "vecthare_chat_12".
Proof.
  split; [reflexivity|].
  apply (strip_source_prefix "ollama" "vecthare_chat_12"). reflexivity.
Defined.

Lemma strip_keeps_plain_ids_witness :
  _stripRegistryPrefix (JsStr "vecthare_chat_12") = JsStr "vecthare_chat_12"
  ∧ _stripRegistryPrefix (JsStr "qdrant:vecthare_chat_12")
    = JsStr "qdrant:vecthare_chat_12".
Proof.
  split.
  - apply (proj1 (strip_keeps_plain_ids "vecthare_chat_12")). reflexivity.
  - apply (proj2 (strip_keeps_plain_ids "qdrant:vecthare_chat_12")
             "qdrant" "vecthare_chat_12"); reflexivity.
Defined.

Lemma lancedb_cached_iff_endpoints_healthy_witness :
  let w := mkEnv 1 (lancedb_attempt (Returns tt) (answer JNull)
                      (answer (JObject [("healthy", JBool true)]))) JsUndefined in
  let r := initializeBackend BACKENDS (JsStr "lancedb") None true w initial in
  healthy_instance "lancedb" initial = None
  ∧ completion r = Normal (Some (mkBackend LanceDBBackend 0)).
Proof.
  intros w r. split; [reflexivity|].
  pose proof (lancedb_cached_iff_endpoints_healthy None true 1 JsUndefined
                (answer JNull) (answer (JObject [("healthy", JBool true)]))
                initial eq_refl) as (_ & _ & Hcases).
  destruct (Hcases eq_refl) as [Hnull|[Hfail|[backend Hdone]]].
  - discriminate Hnull.
  - discriminate Hfail.
  - reflexivity.
Defined.

Example lancedb_truthy_but_not_true_is_unhealthy :
  healthCheck (answer (JObject [("healthy", JNumber false "1")])) = Returns false
  ∧ healthCheck (answer (JObject [("healthy", JString "true")])) = Returns false
  ∧ healthCheck (answer JNull) = Returns false
  ∧ healthCheck (FetchRejects "Failed to fetch") = Returns false
  ∧ initialize server_error
    = Throws "Failed to initialize LanceDB: 500 Internal Server Error - boom".
Proof. vm_compute. by repeat split. Qed.

(** Two listed collections; the purge endpoint fails every time. *)
Lemma purgeAll_purges_every_collection_witness :
  let rows := [[("id", JString "lancedb:openai:chat_1"); ("source", JString "openai")];
               [("id", JString "chat_2")]] in
  let fields := [("collections", JArray (JObject <$> rows))] in
  purgeAllVectorIndexes (fun _ => JsNull) ∅ (answer (JObject fields))
    (fun _ => server_error)
  = (Returns tt,
     [ collections_request;
       {| url := "/api/plugins/similharity/chunks/purge"; method := "POST";
          body := [("backend", Some (JString "lancedb"));
                   ("collectionId", Some (JString "chat_1"));
                   ("source", Some (JString "openai"));
                   ("model", Some (JString EmptyString))] |};
       {| url := "/api/plugins/similharity/chunks/purge"; method := "POST";
          body := [("backend", Some (JString "lancedb"));
                   ("collectionId", Some (JString "chat_2"));
                   ("source", Some (JString "transformers"));
                   ("model", Some (JString EmptyString))] |} ]).
Proof.
  intros rows fields.
  exact (purgeAll_purges_every_collection (fun _ => JsNull) ∅
           (mkResponse true 200 "OK" (Returns (JObject fields)) (Returns EmptyString))
           fields rows (fun _ => server_error) eq_refl eq_refl eq_refl eq_refl).
Defined.

(** A listing with a [null] between two collections; every purge is
    answered ok. *)
Lemma purgeAll_stops_at_null_collection_witness :
  let before := [[("id", JString "chat_1")]] in
  let later := [JObject [("id", JString "chat_2")]] in
  let fields := [("collections", JArray ((JObject <$> before) ++ JNull :: later)%list)] in
  purgeAllVectorIndexes (fun _ => JsNull) ∅ (answer (JObject fields))
    (fun _ => answer JNull)
  = (Throws "Cannot read properties of null",
     [ collections_request;
       {| url := "/api/plugins/similharity/chunks/purge"; method := "POST";
          body := [("backend", Some (JString "lancedb"));
                   ("collectionId", Some (JString "chat_1"));
                   ("source", Some (JString "transformers"));
                   ("model", Some (JString EmptyString))] |} ]).
Proof.
  intros before later fields.
  exact (purgeAll_stops_at_null_collection (fun _ => JsNull) ∅
           (mkResponse true 200 "OK" (Returns (JObject fields)) (Returns EmptyString))
           fields before later (fun _ => answer JNull)
           eq_refl eq_refl eq_refl eq_refl).
Defined.

(** An id that cannot be rendered ends the purge as well, when its purge
    fails; it does not when its purge succeeds. *)
Example purgeAll_depends_on_answer_for_unprintable_id :
  let fields := [("collections",
                  JArray [JObject [("id", JObject [("toString", JNull)])];
                          JObject [("id", JString "chat_2")]])] in
  (purgeAllVectorIndexes (fun _ => JsNull) ∅ (answer (JObject fields))
     (fun _ => server_error)).1
  = Throws "Cannot convert object to primitive value"
  ∧ (purgeAllVectorIndexes (fun _ => JsNull) ∅ (answer (JObject fields))
       (fun _ => answer JNull)).1
    = Returns tt.
Proof. by vm_compute. Qed.

(** A row whose metadata carries a [hash] of its own. *)
Lemma row_metadata_overrides_fields_witness :
  let mfields := [("hash", JNumber false "7"); ("keywords", JArray [])] in
  let fields := [("hash", JNumber false "42"); ("text", JString "hello");
                 ("score", JNumber false "0.5"); ("metadata", JObject mfields)] in
  property "metadata" fields = Some (JObject mfields)
  ∧ NoDup mfields.*1
  ∧ ∃ e, entry (JObject fields) = Returns e
         ∧ read "hash" e = Some (Some (JNumber false "7")).
Proof.
  intros mfields fields.
  assert (Hnd : NoDup mfields.*1) by (apply (bool_decide_unpack _); by vm_compute).
  split; [reflexivity|]. split; [exact Hnd|].
  exact (row_metadata_overrides_fields fields mfields "hash" eq_refl Hnd).
Defined.

Lemma queryCollection_returns_one_entry_per_row_witness :
  let rows := [JObject [("hash", JNumber false "42"); ("text", JString "hello")]] in
  let fetched := answer (JObject [("results", JArray rows)]) in
  let found := mkQueryResult [Some (JNumber false "42")]
                 [[("hash", Some (JNumber false "42"));
                   ("text", Some (JString "hello")); ("score", None)]] in
  (queryCollection (fun _ => JsNull) (Some (JString "chat_1"))
     (Some (JString "hello")) (Some (JNumber false "3")) ∅ fetched).1
  = Returns found
  ∧ ∃ response data items,
      fetched = FetchResolves response
      ∧ ok response = true
      ∧ json response = Returns data
      ∧ get (Some data) "results" = Returns (Some (JArray items))
      ∧ length (hashes found) = length items
      ∧ length (metadata found) = length items.
Proof.
  intros rows fetched found. split; [reflexivity|].
  apply (queryCollection_returns_one_entry_per_row (fun _ => JsNull)
           (Some (JString "chat_1")) (Some (JString "hello"))
           (Some (JNumber false "3")) ∅ fetched found).
  reflexivity.
Defined.

Example queryCollection_throws_without_results :
  (queryCollection (fun _ => JsNull) (Some (JString "chat_1"))
     (Some (JString "hello")) (Some (JNumber false "3")) ∅
     (answer (JObject [("chunks", JArray [])]))).1
  = Throws "Cannot read properties of undefined".
Proof. reflexivity. Qed.

(** Two collections; the first request is rejected, the second answered. *)
Lemma queryMultiple_isolates_failures_witness :
  let fetches := fun i : nat =>
    match i with
    | O => FetchRejects "Failed to fetch"
    | _ => answer (JObject [("chunks", JArray [JObject [("hash", JNumber false "42")]])])
    end in
  let out := queryMultipleCollections (fun _ => JsNull) ["chat_1"; "chat_2"]%string
               (Some (JString "hello")) (Some (JNumber false "3"))
               (Some (JNumber true "0")) ∅ fetches in
  NoDup ["chat_1"; "chat_2"]%string
  ∧ "chat_1" ≠ "__proto__"
  ∧ read "chat_1" (own out.1) = Some no_results
  ∧ read "chat_2" (own out.1)
    = Some (mkQueryResult [Some (JNumber false "42")]
              [[("hash", Some (JNumber false "42")); ("text", None); ("score", None)]]).
Proof.
  intros fetches out.
  assert (Hnd : NoDup ["chat_1"; "chat_2"]%string)
    by (apply (bool_decide_unpack _); by vm_compute).
  assert (Hplain : "chat_1" ≠ "__proto__") by discriminate.
  split; [exact Hnd|]. split; [exact Hplain|]. split.
  - apply (proj2 (queryMultiple_isolates_failures (fun _ => JsNull)
                    ["chat_1"; "chat_2"]%string (Some (JString "hello"))
                    (Some (JNumber false "3")) (Some (JNumber true "0")) ∅
                    fetches 0 "chat_1" Hnd eq_refl Hplain)).
    left. by eexists.
  - reflexivity.
Defined.

(** The id "__proto__" gets no property of its own: its result becomes
    the prototype of the object returned. *)
Example queryMultiple_proto_id :
  let out := queryMultipleCollections (fun _ => JsNull) ["__proto__"]%string
               (Some (JString "hello")) (Some (JNumber false "3"))
               (Some (JNumber true "0")) ∅ (fun _ => server_error) in
  own out.1 = [] ∧ prototype out.1 = Some no_results.
Proof. by vm_compute. Qed.

End LanceDBFacts.
